(** * wsl_build: path, environment and command translation for [wsl_exec]

    A shallow embedding of the Sublime Text build target of this repository.
    [src/wsl_exec.py] is the current plugin (module [WslExec] below),
    [src/main.py] is its first version (module [Main]); both define the class
    [WslExecCommand].

    Python values are modelled as follows.
    - [str] is [string]; a character is a code point below 256, and
      [str.lower] is the Latin-1 part of Python's case mapping.
    - an environment [dict] is an insertion-ordered association list with
      distinct keys (the order of its keys is observable through [WSLENV]);
    - the variable table and the keyword arguments of [run] are only ever
      read and written by key, and are finite maps [gmap string _];
    - a call that may raise returns a [result]. *)

From Stdlib Require Import Ascii String.
From stdpp Require Import base option list strings gmap.

(** ** Python exceptions and the error monad *)

Inductive exn : Type := IndexError | KeyError | TypeError | AttributeError.

Inductive result (A : Type) : Type :=
| Ok (a : A)
| Raise (e : exn).
Arguments Ok {A} a.
Arguments Raise {A} e.

#[global] Instance result_ret : MRet result := fun _ a => Ok a.
#[global] Instance result_bind : MBind result := fun _ _ f m =>
  match m with
  | Ok a => f a
  | Raise e => Raise e
  end.

Definition returns {A} (m : result A) : Prop := exists a, m = Ok a.

(** ** Python string primitives *)

Module Py.

Definition backslash : ascii := "\"%char.
Definition slash : ascii := "/"%char.

(** [s.startswith(p)] *)
Fixpoint startswith (p s : string) : bool :=
  match p, s with
  | EmptyString, _ => true
  | String a p', String b s' => if Ascii.eqb a b then startswith p' s' else false
  | String _ _, EmptyString => false
  end.

(** [s[n:]] for [0 <= n] *)
Fixpoint slice_from (n : nat) (s : string) : string :=
  match n, s with
  | O, _ => s
  | S n', String _ s' => slice_from n' s'
  | S _, EmptyString => EmptyString
  end.

(** [s[:n]] for [0 <= n] *)
Fixpoint slice_to (n : nat) (s : string) : string :=
  match n, s with
  | S n', String c s' => String c (slice_to n' s')
  | _, _ => EmptyString
  end.

(** [s[i:j]] for [0 <= i] and [0 <= j] *)
Definition slice (i j : nat) (s : string) : string :=
  slice_to (j - i) (slice_from i s).

(** [s[i]] for [0 <= i] *)
Definition index (i : nat) (s : string) : result ascii :=
  match String.get i s with
  | Some c => Ok c
  | None => Raise IndexError
  end.

(** [s[-n]] for [1 <= n] *)
Definition index_neg (n : nat) (s : string) : result ascii :=
  if Nat.leb n (String.length s) then index (String.length s - n) s
  else Raise IndexError.

(** [s[:-n]] for [1 <= n] *)
Definition slice_to_neg (n : nat) (s : string) : string :=
  slice_to (String.length s - n) s.

(** [s.replace(a, b)] for one-character [a] and [b] *)
Fixpoint replace (a b : ascii) (s : string) : string :=
  match s with
  | EmptyString => EmptyString
  | String c s' => String (if Ascii.eqb c a then b else c) (replace a b s')
  end.

(** [c.lower()] on code points below 256: [A]-[Z] and the Latin-1 capitals
    (U+00C0 to U+00DE, the multiplication sign U+00D7 apart) move up by 32. *)
Definition lower_char (c : ascii) : ascii :=
  let n := nat_of_ascii c in
  if (Nat.leb 65 n && Nat.leb n 90)
     || (Nat.leb 192 n && Nat.leb n 222 && negb (Nat.eqb n 215))
  then ascii_of_nat (n + 32) else c.

(** A drive letter: [A]-[Z] or [a]-[z]. *)
Definition is_letter (c : ascii) : bool :=
  let n := nat_of_ascii c in
  (Nat.leb 65 n && Nat.leb n 90) || (Nat.leb 97 n && Nat.leb n 122).

(** [sep.join(l)] *)
Definition join (sep : string) (l : list string) : string := String.concat sep l.

(** [c in s] for a character [c] *)
Fixpoint mem (c : ascii) (s : string) : bool :=
  match s with
  | EmptyString => false
  | String a s' => Ascii.eqb a c || mem c s'
  end.

(** [p in s] for a string [p] *)
Fixpoint occurs (p s : string) : bool :=
  startswith p s ||
  match s with
  | EmptyString => false
  | String _ s' => occurs p s'
  end.

End Py.

(** ** The regular expressions of the plugin

    The patterns passed to [re.sub] are a run of one-character atoms, closed
    in [wsl_exec.py] by a greedy negated class.  Each atom consumes exactly
    one character and the class is the last item, so a match at a position
    is unique and no backtracking arises. *)

Module Re.

Inductive atom : Type :=
| Lit (c : ascii)      (* an escaped or ordinary character *)
| Dot.                 (* [.]: any character but a newline *)

Record pattern : Type := Pattern {
  atoms : list atom;
  tail_not : option ascii    (* a closing [[^c]*] *)
}.

Definition atom_matches (a : atom) (c : ascii) : bool :=
  match a with
  | Lit x => Ascii.eqb x c
  | Dot => negb (Ascii.eqb c "010"%char)
  end.

Fixpoint skip_not (x : ascii) (s : string) : string :=
  match s with
  | EmptyString => EmptyString
  | String c s' => if Ascii.eqb c x then s else skip_not x s'
  end.

Fixpoint match_atoms (l : list atom) (s : string) : option string :=
  match l, s with
  | [], _ => Some s
  | a :: l', String c s' => if atom_matches a c then match_atoms l' s' else None
  | _ :: _, EmptyString => None
  end.

(** The text left after the match of [p] that starts at the head of [s]. *)
Definition match_at (p : pattern) (s : string) : option string :=
  match match_atoms (atoms p) s with
  | Some rest =>
      Some (match tail_not p with Some x => skip_not x rest | None => rest end)
  | None => None
  end.

(** [re.sub(p, repl, s)] for a pattern that matches no empty string and a
    replacement without group references: the leftmost matches, none
    overlapping, are replaced. *)
Fixpoint sub_go (fuel : nat) (p : pattern) (repl s : string) : string :=
  match fuel, s with
  | S fuel', String c s' =>
      match match_at p s with
      | Some rest => repl +:+ sub_go fuel' p repl rest
      | None => String c (sub_go fuel' p repl s')
      end
  | _, _ => s
  end.

Definition sub (p : pattern) (repl s : string) : string :=
  sub_go (String.length s) p repl s.

Definition lits (s : string) : list atom :=
  map Lit (list_ascii_of_string s).

End Re.

(** ** Python dictionaries

    A [dict] keeps its keys in insertion order: assigning to a key that is
    present keeps its place, assigning to a new key appends it. *)

Module Dict.

Definition t (V : Type) : Type := list (string * V).

Definition keys {V} (d : t V) : list string := d.*1.

Fixpoint get {V} (k : string) (d : t V) : option V :=
  match d with
  | [] => None
  | (k', v) :: d' => if String.eqb k' k then Some v else get k d'
  end.

(** [d[k] = v] *)
Fixpoint set {V} (k : string) (v : V) (d : t V) : t V :=
  match d with
  | [] => [(k, v)]
  | (k', v') :: d' =>
      if String.eqb k' k then (k', v) :: d' else (k', v') :: set k v d'
  end.

(** [d.pop(k)] *)
Fixpoint pop {V} (k : string) (d : t V) : result (V * t V) :=
  match d with
  | [] => Raise KeyError
  | (k', v') :: d' =>
      if String.eqb k' k then Ok (v', d')
      else '(v, d'') ← pop k d'; Ok (v, (k', v') :: d'')
  end.

(** The keys of a [dict] are distinct. *)
Definition wf {V} (d : t V) : Prop := NoDup (keys d).

End Dict.

(** ** JSON values of a build system: the arguments of [run] *)

#[warnings="-register-all"] Inductive value : Type :=
| VNull
| VBool (b : bool)
| VNum (n : Z)
| VStr (s : string)
| VList (l : list value)
| VDict (d : list (string * value)).

Definition of_strings (l : list string) : value := VList (VStr <$> l).

(** ** [src/wsl_exec.py] *)

Module WslExec.

(** [r"\\\\wsl\.localhost\\[^\\]*"] *)
Definition unc_prefix : string := "\\wsl.localhost\".
Definition unc_pattern : Re.pattern :=
  Re.Pattern (Re.lits unc_prefix) (Some Py.backslash).

Definition wsl_path (path : string) : result string :=
  path ←
    (if Py.startswith "\\" path then
       Ok (Re.sub unc_pattern "" path)
     else if String.eqb (Py.slice 1 3 path) ":\" then
       c ← Py.index 0 path;
       Ok ("/mnt/" +:+ String (Py.lower_char c) (Py.slice_from 2 path))
     else Ok path);
  Ok (Py.replace Py.backslash Py.slash path).

Definition wsl_cmd (cmd : list string) (cwd : string) : result (list string) :=
  let wsl := ["wsl"] in
  wsl ←
    (if String.eqb cwd "" then Ok wsl
     else p ← wsl_path cwd; Ok (wsl ++ ["cd"; p; ";"]));
  Ok (wsl ++ cmd).

(** [key[-2] == "/" and key[-1] in ("l", "p", "u", "w")] *)
Definition has_flag (key : string) : result bool :=
  c ← Py.index_neg 2 key;
  if Ascii.eqb c "/" then
    f ← Py.index_neg 1 key;
    Ok (Py.mem f "lpuw")
  else Ok false.

(** [key[:-2]] *)
Definition unflagged (key : string) : string := Py.slice_to_neg 2 key.

(** A key is flagged when the test of [wsl_env] holds of it: it ends in
    [/l], [/p], [/u] or [/w]. *)
Definition flagged (key : string) : bool :=
  match has_flag key with
  | Ok b => b
  | Raise _ => false
  end.

(** Two keys collide when they have one unflagged name, or one of them is
    the unflagged name of the other. *)
Definition collide (k k' : string) : Prop :=
  unflagged k' = unflagged k ∨ unflagged k' = k ∨ unflagged k = k'.

(** The loop of [wsl_env] over [list(env)], the keys as they were when the
    loop was entered. *)
Fixpoint strip_flags {V} (ks : list string) (env : Dict.t V) : result (Dict.t V) :=
  match ks with
  | [] => Ok env
  | key :: ks' =>
      flag ← has_flag key;
      env ←
        (if flag : bool then
           '(v, env) ← Dict.pop key env;
           Ok (Dict.set (unflagged key) v env)
         else Ok env);
      strip_flags ks' env
  end.

(** The values of [env] are not inspected; [mkstr] builds the value of the
    new [WSLENV] entry. *)
Definition wsl_env {V} (mkstr : string → V) (env : Dict.t V) : result (Dict.t V) :=
  let env := Dict.set "WSLENV" (mkstr (Py.join ":" (Dict.keys env))) env in
  strip_flags (Dict.keys env) env.

(** The six names of the set literal in [run]. *)
Definition path_variables : list string :=
  ["file"; "file_path"; "folder"; "packages"; "project"; "project_path"].

Definition unix_name (var : string) : string := "unix_" +:+ var.

(** The variables of the host, as the docstring of the class lists them. *)
Definition host_variables : list string :=
  ["file"; "file_base_name"; "file_extension"; "file_name"; "file_path";
   "folder"; "packages"; "project"; "project_base_name"; "project_extension";
   "project_name"; "project_path"; "platform"].

(** [variables[var]] *)
Definition lookup_var (var : string) (variables : gmap string string) : result string :=
  match variables !! var with
  | Some x => Ok x
  | None => Raise KeyError
  end.

(** The loop of [run] over the set of path variables, visited in [order]
    (the iteration order of a Python set is not fixed). *)
Fixpoint add_unix_variables (order : list string) (variables : gmap string string)
  : result (gmap string string) :=
  match order with
  | [] => Ok variables
  | var :: order' =>
      x ← lookup_var var variables;
      p ← wsl_path x;
      add_unix_variables order' (<[unix_name var := p]> variables)
  end.

Definition dropped : list string := ["env"; "shell_cmd"; "working_dir"].

Section Run.

(** The host's [sublime.expand_variables] on one value: it rewrites the
    strings inside a value and leaves the keys of the argument dictionary
    as they are. *)
Variable expand : gmap string string → value → value.

(** [self.window.extract_variables()] *)
Variable extract_variables : gmap string string.

(** The order in which the set of path variables is visited. *)
Variable order : list string.

(** The result is the keyword arguments handed to [super().run]. *)
Definition run (wsl_cmd' : list string) (wsl_working_dir : string)
           (wsl_env' : option (Dict.t value)) (kwargs : gmap string value)
  : result (gmap string value) :=
  let wsl_args := filter (λ kv, kv.1 ∉ dropped) kwargs in
  cmd ← wsl_cmd wsl_cmd' wsl_working_dir;
  let wsl_args := <["cmd" := of_strings cmd]> wsl_args in
  wsl_args ←
    match wsl_env' with
    | Some env =>
        if bool_decide (env = []) then Ok wsl_args
        else env ← wsl_env VStr env; Ok (<["env" := VDict env]> wsl_args)
    | None => Ok wsl_args
    end;
  variables ← add_unix_variables order extract_variables;
  Ok (expand variables <$> (wsl_args : gmap string value)).

End Run.

End WslExec.

(** ** Sample inputs

    The variable table of a file in a project on drive [C], and the
    arguments of a build system whose raw input also sets [working_dir] and
    [shell_cmd]. *)

Definition sample_variables : gmap string string :=
  list_to_map
    [("file", "C:\proj\spec\a_spec.rb"); ("file_base_name", "a_spec");
     ("file_extension", "rb"); ("file_name", "a_spec.rb");
     ("file_path", "C:\proj\spec"); ("folder", "C:\proj");
     ("packages", "C:\Users\me\Packages"); ("project", "C:\proj\app.sublime-project");
     ("project_base_name", "app"); ("project_extension", "sublime-project");
     ("project_name", "app.sublime-project"); ("project_path", "C:\proj");
     ("platform", "Windows")].

Definition sample_kwargs : gmap string value :=
  list_to_map
    [("working_dir", VStr "C:\old"); ("shell_cmd", VStr "dir");
     ("cancel", VDict [("kill", VBool true)])].

Definition sample_env : Dict.t value :=
  [("PLAIN", VStr "untranslated"); ("PATH/p", VStr "C:\x")].

(** ** [src/main.py], the first version of the plugin *)

Module Main.

(** ["\\\\\\\\wsl.localhost\\\\Ubuntu"]: the dot is not escaped. *)
Definition unc_pattern : Re.pattern :=
  Re.Pattern (Re.lits "\\wsl" ++ [Re.Dot] ++ Re.lits "localhost\Ubuntu") None.

(** ["\\\\"] *)
Definition backslash_pattern : Re.pattern := Re.Pattern [Re.Lit Py.backslash] None.

Definition wsl_path (s : string) : string :=
  let prefix_removed := Re.sub unc_pattern "" s in
  Re.sub backslash_pattern "/" prefix_removed.

Definition wsl_env {V} (mkstr : string → V) (dict : Dict.t V) : Dict.t V :=
  Dict.set "WSLENV" (mkstr (Py.join ":" (Dict.keys dict))) dict.

(** The four assignments at the head of [run]: each path variable is
    overwritten by its translation. *)
Fixpoint convert_variables (vars : list string) (variables : gmap string string)
  : result (gmap string string) :=
  match vars with
  | [] => Ok variables
  | var :: vars' =>
      x ← WslExec.lookup_var var variables;
      convert_variables vars' (<[var := wsl_path x]> variables)
  end.

Definition converted : list string := ["file"; "file_path"; "folder"; "project_path"].

Section Run.

Variable expand : gmap string string → value → value.
Variable extract_variables : gmap string string.

(** [args.pop(k, [])] *)
Definition pop_default (k : string) (args : gmap string value)
  : value * gmap string value :=
  (default (VList []) (args !! k), delete k args).

Definition run (kwargs : gmap string value) : result (gmap string value) :=
  variables ← convert_variables converted extract_variables;
  let args : gmap string value := expand variables <$> kwargs in
  let '(c, args) := pop_default "wsl_cmd" args in
  cmd ← match c with
        | VList l => Ok (VList (VStr "wsl" :: l))
        | _ => Raise TypeError
        end;
  let args := <["cmd" := cmd]> args in
  let args :=
    if bool_decide (is_Some (args !! "wsl_working_dir")) then
      let '(wd, args) := pop_default "wsl_working_dir" args in
      <["working_dir" := wd]> args
    else args in
  if bool_decide (is_Some (args !! "wsl_env")) then
    let '(e, args) := pop_default "wsl_env" args in
    match e with
    | VDict d => Ok (<["env" := VDict (wsl_env VStr d)]> args)
    | _ => Raise AttributeError
    end
  else Ok args.

End Run.

End Main.

(** * Properties *)

#[local] Arguments String.append : simpl nomatch.
#[local] Arguments Ascii.eqb !_ !_ /.

(** ** Strings *)

Section StringFacts.

Implicit Types (s t p : string) (a b c : ascii).

Lemma ascii_eqb_true a b : Ascii.eqb a b = true ↔ a = b.
Proof. apply Ascii.eqb_eq. Qed.

Lemma ascii_eqb_false a b : Ascii.eqb a b = false ↔ a ≠ b.
Proof. apply Ascii.eqb_neq. Qed.

Lemma replace_app a b s t :
  Py.replace a b (s +:+ t) = Py.replace a b s +:+ Py.replace a b t.
Proof. induction s as [|c s IH]; simpl; [done|by rewrite IH]. Qed.

Lemma replace_absent a b s : Py.mem a s = false → Py.replace a b s = s.
Proof.
  induction s as [|c s IH]; simpl; [done|].
  intros [Hc Hs]%orb_false_elim. by rewrite Hc, IH.
Qed.

(** After [replace(a, b)] no [a] is left, when [b] is another character. *)
Lemma replace_removes a b s : a ≠ b → Py.mem a (Py.replace a b s) = false.
Proof.
  intros Hab. induction s as [|c s IH]; simpl; [done|].
  rewrite IH, orb_false_r. destruct (Ascii.eqb c a) eqn:Hc; [|done].
  apply ascii_eqb_false. congruence.
Qed.

Lemma startswith_app p s : Py.startswith p (p +:+ s) = true.
Proof. induction p as [|c p IH]; simpl; [done|]. by rewrite Ascii.eqb_refl. Qed.

Lemma occurs_tail p c s : Py.occurs p (String c s) = false → Py.occurs p s = false.
Proof. simpl. by intros [_ ?]%orb_false_elim. Qed.

Lemma occurs_head p s : Py.occurs p s = false → Py.startswith p s = false.
Proof. destruct s; simpl; by intros [? _]%orb_false_elim. Qed.

Lemma lower_char_backslash c : Py.lower_char c = Py.backslash ↔ c = Py.backslash.
Proof.
  split; [|by intros ->].
  destruct c as [[] [] [] [] [] [] [] []]; vm_compute; congruence.
Qed.

End StringFacts.

(** ** Regular-expression substitution *)

Section ReFacts.

Implicit Types (s t rest repl : string) (p : Re.pattern) (l : list Re.atom).

Lemma skip_not_length x s : String.length (Re.skip_not x s) ≤ String.length s.
Proof.
  induction s as [|c s IH]; simpl; [done|].
  destruct (Ascii.eqb c x); simpl; lia.
Qed.

Lemma match_atoms_length l s rest :
  Re.match_atoms l s = Some rest →
  String.length s = length l + String.length rest.
Proof.
  revert s. induction l as [|a l IH]; intros s; simpl.
  - by intros [= ->].
  - destruct s as [|c s]; [done|].
    destruct (Re.atom_matches a c); [|done].
    intros Hm%IH. simpl. lia.
Qed.

(** A match of a pattern with at least one atom consumes a character. *)
Lemma match_at_shorter p s rest :
  Re.atoms p ≠ [] → Re.match_at p s = Some rest →
  String.length rest < String.length s.
Proof.
  unfold Re.match_at. intros Hp.
  destruct (Re.match_atoms (Re.atoms p) s) as [r|] eqn:Hm; [|done].
  apply match_atoms_length in Hm. intros [= <-].
  assert (0 < length (Re.atoms p)) by (destruct (Re.atoms p); [done|simpl; lia]).
  destruct (Re.tail_not p) as [x|]; [pose proof (skip_not_length x r)|]; lia.
Qed.

(** The scan needs no more fuel than the length of the text. *)
Lemma sub_go_fuel p repl n m s :
  Re.atoms p ≠ [] → String.length s ≤ n → String.length s ≤ m →
  Re.sub_go n p repl s = Re.sub_go m p repl s.
Proof.
  intros Hp. revert m s. induction n as [|n IH]; intros m s Hn Hm.
  - destruct s; [|simpl in Hn; lia]. by destruct m.
  - destruct s as [|c s]; [by destruct m|].
    destruct m as [|m]; [simpl in Hm; lia|]. simpl in Hn, Hm. simpl.
    destruct (Re.match_at p (String c s)) as [rest|] eqn:Hmatch.
    + apply (match_at_shorter _ _ _ Hp) in Hmatch. simpl in Hmatch.
      f_equal. apply IH; lia.
    + f_equal. apply IH; lia.
Qed.

Lemma sub_nil p repl : Re.sub p repl "" = "".
Proof. done. Qed.

Lemma sub_match p repl s rest :
  Re.atoms p ≠ [] → Re.match_at p s = Some rest →
  Re.sub p repl s = repl +:+ Re.sub p repl rest.
Proof.
  intros Hp Hm. pose proof (match_at_shorter _ _ _ Hp Hm) as Hlt.
  unfold Re.sub. destruct s as [|c s]; [simpl in Hlt; lia|].
  simpl String.length. cbn [Re.sub_go]. rewrite Hm. f_equal.
  simpl in Hlt. apply sub_go_fuel; [done|lia|lia].
Qed.

Lemma sub_skip p repl c s :
  Re.match_at p (String c s) = None →
  Re.sub p repl (String c s) = String c (Re.sub p repl s).
Proof. intros Hm. unfold Re.sub. simpl String.length. cbn [Re.sub_go]. by rewrite Hm. Qed.

(** A run of literal atoms matches exactly its own text. *)
Lemma match_lits t s :
  Re.match_atoms (Re.lits t) s =
  if Py.startswith t s then Some (Py.slice_from (String.length t) s) else None.
Proof.
  revert s. induction t as [|c t IH]; intros s; [done|].
  destruct s as [|b s]; [done|]. cbn.
  destruct (Ascii.eqb c b); [apply IH|done].
Qed.

Lemma slice_from_app t s : Py.slice_from (String.length t) (t +:+ s) = s.
Proof. induction t as [|c t IH]; [done|]. apply IH. Qed.

Lemma skip_not_stop x s t :
  Py.mem x s = false → Re.skip_not x (s +:+ String x t) = String x t.
Proof.
  induction s as [|c s IH]; simpl.
  - by rewrite Ascii.eqb_refl.
  - intros [-> Hs]%orb_false_elim. by apply IH.
Qed.

(** Where a literal text does not occur, nothing is substituted. *)
Lemma sub_lits_absent t o repl s :
  Py.occurs t s = false → Re.sub (Re.Pattern (Re.lits t) o) repl s = s.
Proof.
  induction s as [|c s IH]; [done|]. intros Hocc.
  rewrite sub_skip.
  - f_equal. apply IH. by eapply occurs_tail.
  - unfold Re.match_at. cbn [Re.atoms]. rewrite match_lits.
    by rewrite (occurs_head _ _ Hocc).
Qed.

(** [re.sub("\\\\", "/", s)] of [main.py] is [s.replace("\\", "/")]. *)
Lemma sub_backslash s :
  Re.sub Main.backslash_pattern "/" s = Py.replace Py.backslash Py.slash s.
Proof.
  induction s as [|c s IH]; [done|]. simpl Py.replace.
  assert (Re.match_at Main.backslash_pattern (String c s) =
          if Ascii.eqb c Py.backslash then Some s else None) as Hm.
  { unfold Re.match_at, Main.backslash_pattern.
    cbn [Re.atoms Re.tail_not Re.match_atoms Re.atom_matches].
    rewrite (Ascii.eqb_sym _ c). by destruct (Ascii.eqb c Py.backslash). }
  destruct (Ascii.eqb c Py.backslash).
  - rewrite (sub_match _ _ _ s); [by rewrite IH|done|done].
  - rewrite sub_skip; [by rewrite IH|done].
Qed.

End ReFacts.

(** ** The path translator, [wsl_path] of [wsl_exec.py] *)

Section WslPathFacts.

Import WslExec.
Implicit Types (path p q rest distro : string) (c : ascii).

Lemma startswith_2 c1 c2 s :
  Py.startswith "\\" (String c1 (String c2 s)) =
  Ascii.eqb Py.backslash c1 && Ascii.eqb Py.backslash c2.
Proof.
  cbn [Py.startswith]. fold Py.backslash.
  by destruct (Ascii.eqb Py.backslash c1), (Ascii.eqb Py.backslash c2).
Qed.

(** [path[0]] is only evaluated where [path[1:3]] has shown three
    characters: the translation never raises. *)
Lemma wsl_path_returns path : returns (wsl_path path).
Proof.
  unfold wsl_path, returns.
  destruct (Py.startswith "\\" path); [by eexists|].
  destruct (String.eqb (Py.slice 1 3 path) ":\") eqn:Hs; [|by eexists].
  destruct path as [|c path]; [done|]. by eexists.
Qed.

Lemma wsl_path_normalized p q : wsl_path p = Ok q → Py.mem Py.backslash q = false.
Proof.
  unfold wsl_path. intros H.
  match type of H with ?m ≫= _ = _ => destruct m as [x|e] end; [|done].
  injection H as <-. by apply replace_removes.
Qed.

Lemma startswith_unc_absent p :
  Py.mem Py.backslash p = false → Py.startswith "\\" p = false.
Proof.
  destruct p as [|c1 [|c2 p]]; [done| |]; simpl.
  - intros [H _]%orb_false_elim. fold Py.backslash. by rewrite Ascii.eqb_sym, H.
  - intros [H _]%orb_false_elim. fold Py.backslash. by rewrite Ascii.eqb_sym, H.
Qed.

Lemma slice_drive_absent p :
  Py.mem Py.backslash p = false → String.eqb (Py.slice 1 3 p) ":\" = false.
Proof.
  destruct p as [|c1 [|c2 [|c3 p]]]; try done.
  - simpl. intros _. by rewrite andb_false_r || destruct (Ascii.eqb c2 ":").
  - simpl. intros [_ [_ [H _]%orb_false_elim]%orb_false_elim]%orb_false_elim.
    fold Py.backslash. rewrite H. by destruct (Ascii.eqb c2 ":").
Qed.

(** A path without a backslash is returned as it is. *)
Lemma wsl_path_fixed p : Py.mem Py.backslash p = false → wsl_path p = Ok p.
Proof.
  intros Hp. unfold wsl_path.
  rewrite (startswith_unc_absent _ Hp), (slice_drive_absent _ Hp). simpl.
  by rewrite (replace_absent _ _ _ Hp).
Qed.

(** The translation is idempotent on every path. *)
Lemma wsl_path_idempotent p q : wsl_path p = Ok q → wsl_path q = Ok q.
Proof. intros H. eapply wsl_path_fixed, wsl_path_normalized, H. Qed.

(** A string with [:\] in second place takes the drive branch, whatever its
    first character. *)
Lemma wsl_path_drive_branch c rest :
  wsl_path (String c (":\" +:+ rest)) =
  Ok (Py.replace Py.backslash Py.slash
        ("/mnt/" +:+ String (Py.lower_char c) ("\" +:+ rest))).
Proof.
  unfold wsl_path. cbn [String.append]. rewrite startswith_2.
  replace (Ascii.eqb Py.backslash ":") with false by done.
  by rewrite andb_false_r.
Qed.

(** The match of the UNC pattern at the head of a subsystem path ends at
    the backslash that closes the distribution name. *)
Lemma match_unc distro rest :
  Py.mem Py.backslash distro = false →
  Re.match_at unc_pattern (unc_prefix +:+ distro +:+ String Py.backslash rest) =
  Some (String Py.backslash rest).
Proof.
  intros Hd. unfold Re.match_at, unc_pattern. cbn [Re.atoms Re.tail_not].
  rewrite match_lits, startswith_app, slice_from_app.
  by rewrite skip_not_stop.
Qed.

Lemma unc_pattern_atoms : Re.atoms unc_pattern ≠ [].
Proof. vm_compute. discriminate. Qed.

Lemma sub_unc distro rest :
  Py.mem Py.backslash distro = false →
  Py.occurs unc_prefix (String Py.backslash rest) = false →
  Re.sub unc_pattern "" (unc_prefix +:+ distro +:+ String Py.backslash rest) =
  String Py.backslash rest.
Proof.
  intros Hd Hocc.
  rewrite (sub_match _ _ _ _ unc_pattern_atoms (match_unc _ _ Hd)).
  apply (sub_lits_absent _ _ _ _ Hocc).
Qed.

Lemma is_letter_lower_plain c :
  Py.is_letter c = true → Ascii.eqb (Py.lower_char c) Py.backslash = false.
Proof.
  intros Hc. apply ascii_eqb_false. intros ->%lower_char_backslash. done.
Qed.

End WslPathFacts.

(** C1, as amended: for every subsystem UNC path on the host
    [wsl.localhost], [\\wsl.localhost\<distro>\<rest>] with a distribution
    name free of backslashes and no further [\\wsl.localhost\] inside
    [\<rest>], [wsl_path] strips the prefix [\\wsl.localhost\<distro>] and
    yields [/<rest>] with forward slashes. *)
Theorem wsl_path_unc_localhost (distro rest : string) :
  Py.mem Py.backslash distro = false →
  Py.occurs WslExec.unc_prefix ("\" +:+ rest) = false →
  WslExec.wsl_path ("\\wsl.localhost\" +:+ distro +:+ "\" +:+ rest) =
  Ok ("/" +:+ Py.replace Py.backslash Py.slash rest).
Proof.
  intros Hd Hocc. unfold WslExec.wsl_path.
  change ("\\wsl.localhost\" +:+ distro +:+ "\" +:+ rest)
    with (WslExec.unc_prefix +:+ distro +:+ String Py.backslash rest).
  replace (Py.startswith "\\" _) with true by done.
  rewrite (sub_unc _ _ Hd Hocc). done.
Qed.

Lemma wsl_path_unc_localhost_witness :
  WslExec.wsl_path ("\\wsl.localhost\" +:+ "Ubuntu" +:+ "\" +:+ "a\b") =
  Ok ("/" +:+ Py.replace Py.backslash Py.slash "a\b").
Proof. apply wsl_path_unc_localhost; reflexivity. Defined.

(** C1, as stated, fails: the prefix of another host is not stripped, and
    [\\host\Distro\a\b] becomes [//host/Distro/a/b]. *)
Lemma wsl_path_unc_any_host_fails :
  ¬ ∀ host distro rest : string,
      Py.mem Py.backslash host = false →
      Py.mem Py.backslash distro = false →
      WslExec.wsl_path ("\\" +:+ host +:+ "\" +:+ distro +:+ "\" +:+ rest) =
      Ok ("/" +:+ Py.replace Py.backslash Py.slash rest).
Proof.
  intros H. specialize (H "host" "Distro" "a\b" eq_refl eq_refl).
  vm_compute in H. discriminate H.
Qed.

(** C4: a local drive path [<letter>:\<remainder>] is translated to
    [/mnt/<lowercased letter>/<remainder with forward slashes>]. *)
Theorem wsl_path_drive (c : ascii) (rest : string) :
  Py.is_letter c = true →
  WslExec.wsl_path (String c (":\" +:+ rest)) =
  Ok ("/mnt/" +:+ String (Py.lower_char c)
                ("/" +:+ Py.replace Py.backslash Py.slash rest)).
Proof.
  intros Hc. rewrite wsl_path_drive_branch.
  rewrite (replace_app _ _ "/mnt/"). cbn [Py.replace].
  by rewrite (is_letter_lower_plain _ Hc).
Qed.

Lemma wsl_path_drive_witness :
  WslExec.wsl_path (String "X" (":\" +:+ "a\b")) =
  Ok ("/mnt/" +:+ String (Py.lower_char "X")
                ("/" +:+ Py.replace Py.backslash Py.slash "a\b")).
Proof. apply wsl_path_drive. reflexivity. Defined.

(** C9: on a path without a backslash, translating twice is translating
    once (and the translation returns). *)
Theorem wsl_path_idempotent_forward (p : string) :
  Py.mem Py.backslash p = false →
  ∃ q, WslExec.wsl_path p = Ok q ∧
       (WslExec.wsl_path p ≫= WslExec.wsl_path) = WslExec.wsl_path p ∧
       WslExec.wsl_path q = Ok q.
Proof.
  intros Hp. exists p. pose proof (wsl_path_fixed _ Hp) as H.
  rewrite H. simpl. by rewrite H.
Qed.

Lemma wsl_path_idempotent_forward_witness :
  ∃ q, WslExec.wsl_path "/home/me/a.rb" = Ok q ∧
       (WslExec.wsl_path "/home/me/a.rb" ≫= WslExec.wsl_path) =
       WslExec.wsl_path "/home/me/a.rb" ∧
       WslExec.wsl_path q = Ok q.
Proof. apply wsl_path_idempotent_forward. reflexivity. Defined.

(** C10, as amended: whatever the first character [c], a string whose
    second and third characters are [:\] gets the drive rewrite followed by
    the final slash normalisation: [/mnt/], then [c] lowercased, or [/]
    when [c] is itself a backslash, then [/] and the remainder with forward
    slashes. *)
Theorem wsl_path_drive_any (c : ascii) (rest : string) :
  WslExec.wsl_path (String c (":\" +:+ rest)) =
  Ok ("/mnt/" +:+ String (if Ascii.eqb c Py.backslash then Py.slash else Py.lower_char c)
                ("/" +:+ Py.replace Py.backslash Py.slash rest)).
Proof.
  rewrite wsl_path_drive_branch.
  rewrite (replace_app _ _ "/mnt/"). cbn [Py.replace]. do 2 f_equal.
  destruct (Ascii.eqb c Py.backslash) eqn:Hc.
  - apply ascii_eqb_true in Hc as ->. done.
  - destruct (Ascii.eqb (Py.lower_char c) Py.backslash) eqn:Hl; [|done].
    apply ascii_eqb_true, lower_char_backslash in Hl as ->. done.
Qed.

(** C10, as stated, fails where the first character is a backslash:
    [\:\a] becomes [/mnt///a], in which the first character is no longer
    the (lowercased) backslash. *)
Lemma wsl_path_drive_any_fails :
  ¬ ∀ (c : ascii) (rest : string),
      WslExec.wsl_path (String c (":\" +:+ rest)) =
      Ok ("/mnt/" +:+ String (Py.lower_char c)
                    ("/" +:+ Py.replace Py.backslash Py.slash rest)).
Proof.
  intros H. specialize (H "\"%char "a"). vm_compute in H. discriminate H.
Qed.

Example wsl_path_digit_drive : WslExec.wsl_path "1:\a" = Ok "/mnt/1/a".
Proof. reflexivity. Qed.

Example wsl_path_backslash_drive : WslExec.wsl_path "\:\a" = Ok "/mnt///a".
Proof. reflexivity. Qed.

(** ** The command assembler, [wsl_cmd] *)

Lemma wsl_cmd_returns (cmd : list string) (cwd : string) :
  returns (WslExec.wsl_cmd cmd cwd).
Proof.
  unfold WslExec.wsl_cmd. destruct (String.eqb cwd ""); [by eexists|].
  destruct (wsl_path_returns cwd) as [t ->]. by eexists.
Qed.

(** C5: with an empty working directory the command is [wsl] followed by
    [cmd]; otherwise it is [wsl], [cd], the translated directory and [;]
    followed by [cmd]. In both cases [cmd] follows unchanged. *)
Theorem wsl_cmd_assembles (cmd : list string) (cwd : string) :
  ∃ t, WslExec.wsl_path cwd = Ok t ∧
       WslExec.wsl_cmd cmd cwd =
       Ok (if decide (cwd = "") then ["wsl"] ++ cmd
           else ["wsl"; "cd"; t; ";"] ++ cmd).
Proof.
  destruct (wsl_path_returns cwd) as [t Ht].
  exists t. split; [done|]. unfold WslExec.wsl_cmd.
  destruct (String.eqb_spec cwd "") as [->|Hne].
  - done.
  - rewrite Ht. by rewrite decide_False.
Qed.

Example wsl_cmd_plain : WslExec.wsl_cmd ["a"; "b"] "" = Ok ["wsl"; "a"; "b"].
Proof. reflexivity. Qed.

Example wsl_cmd_cd :
  WslExec.wsl_cmd ["a"] "C:\proj" = Ok ["wsl"; "cd"; "/mnt/c/proj"; ";"; "a"].
Proof. reflexivity. Qed.

(** ** Dictionaries *)

Section DictFacts.

Context {V : Type}.
Implicit Types (d : Dict.t V) (k j : string) (v : V).

Lemma get_None k d : Dict.get k d = None ↔ k ∉ Dict.keys d.
Proof.
  unfold Dict.keys. induction d as [|[k' v'] d IH]; simpl.
  - split; [intros _; apply not_elem_of_nil|done].
  - rewrite not_elem_of_cons. destruct (String.eqb_spec k' k) as [->|Hne].
    + split; [done|]. by intros [? _].
    + rewrite IH. split; [|by intros [_ ?]]. by split; [congruence|].
Qed.

Lemma get_elem k v d : Dict.wf d → (k, v) ∈ d → Dict.get k d = Some v.
Proof.
  unfold Dict.wf, Dict.keys. induction d as [|[k' v'] d IH]; simpl.
  - by intros _ ?%elem_of_nil.
  - intros [Hk' Hwf]%NoDup_cons [[= -> ->]|Hin]%elem_of_cons.
    + by rewrite String.eqb_refl.
    + destruct (String.eqb_spec k' k) as [->|Hne]; [|by apply IH].
      exfalso. apply Hk'. apply list_elem_of_fmap. by exists (k, v).
Qed.

Lemma get_set k j v d :
  Dict.get j (Dict.set k v d) = if decide (k = j) then Some v else Dict.get j d.
Proof.
  induction d as [|[k' v'] d IH]; simpl.
  - destruct (String.eqb_spec k j); by case_decide.
  - destruct (String.eqb_spec k' k) as [->|Hne]; simpl.
    + destruct (String.eqb_spec k j); by case_decide.
    + rewrite IH. destruct (String.eqb_spec k' j) as [->|?]; [|done].
      by rewrite decide_False.
Qed.

Lemma keys_set k v d :
  Dict.keys (Dict.set k v d) =
  if decide (k ∈ Dict.keys d) then Dict.keys d else Dict.keys d ++ [k].
Proof.
  unfold Dict.keys. induction d as [|[k' v'] d IH].
  - rewrite decide_False; [done|apply not_elem_of_nil].
  - cbn [Dict.set]. destruct (String.eqb_spec k' k) as [->|Hne].
    + rewrite decide_True; [done|]. rewrite fmap_cons. apply elem_of_cons. by left.
    + rewrite !fmap_cons. cbn [fst]. rewrite IH.
      destruct (decide (k ∈ d.*1)) as [Hin|Hnin].
      * rewrite decide_True; [done|]. apply elem_of_cons. by right.
      * rewrite decide_False; [done|]. rewrite not_elem_of_cons. by split.
Qed.

Lemma elem_keys_set k j v d :
  j ∈ Dict.keys (Dict.set k v d) ↔ j = k ∨ j ∈ Dict.keys d.
Proof.
  rewrite keys_set. case_decide as Hk.
  - split; [by right|]. by intros [->|?].
  - rewrite elem_of_app, list_elem_of_singleton. tauto.
Qed.

Lemma wf_set k v d : Dict.wf d → Dict.wf (Dict.set k v d).
Proof.
  unfold Dict.wf. rewrite keys_set. case_decide as Hk; [done|].
  intros Hwf. apply NoDup_app. split_and!; [done| |apply NoDup_singleton].
  intros j Hj ->%list_elem_of_singleton. done.
Qed.

(** [pop] raises exactly on an absent key. *)
Lemma pop_present k d : k ∈ Dict.keys d → returns (Dict.pop k d).
Proof.
  unfold Dict.keys, returns. induction d as [|[k' v'] d IH]; simpl.
  - by intros ?%elem_of_nil.
  - destruct (String.eqb_spec k' k) as [->|Hne]; [by eexists|].
    intros [?|Hin]%elem_of_cons; [congruence|].
    destruct (IH Hin) as [[v d'] ->]. by eexists.
Qed.

Lemma pop_Ok k v d d' :
  Dict.pop k d = Ok (v, d') →
  Dict.get k d = Some v ∧
  (∀ j, j ≠ k → Dict.get j d' = Dict.get j d) ∧
  (∀ j, j ∈ Dict.keys d' → j ∈ Dict.keys d) ∧
  (∀ j, j ∈ Dict.keys d → j ≠ k → j ∈ Dict.keys d') ∧
  (Dict.wf d → Dict.wf d' ∧ Dict.get k d' = None).
Proof.
  unfold Dict.wf, Dict.keys. revert d'.
  induction d as [|[k' v'] d IH]; intros d'; simpl; [done|].
  destruct (String.eqb_spec k' k) as [->|Hne].
  - intros [= -> ->]. split_and!; [done| | | |].
    + intros j Hj. by rewrite (proj2 (String.eqb_neq k j)).
    + intros j Hj. apply elem_of_cons. by right.
    + by intros j [->|?]%elem_of_cons.
    + intros [Hk Hwf]%NoDup_cons. split; [done|]. by apply get_None.
  - destruct (Dict.pop k d) as [[v0 d0]|] eqn:Hpop; [|done]. simpl.
    intros [= -> <-]. destruct (IH _ eq_refl) as (Hget & Hframe & Hsub & Hsup & Hwf).
    split_and!; [done| | | |].
    + intros j Hj. simpl. rewrite (Hframe j Hj). done.
    + intros j. simpl. rewrite !elem_of_cons. intros [->|?]; [by left|right; auto].
    + intros j. simpl. rewrite !elem_of_cons. intros [->|?] ?; [by left|right; auto].
    + intros [Hk' Hd]%NoDup_cons. destruct (Hwf Hd) as [Hwf0 Hnone].
      simpl. split.
      * apply NoDup_cons. split; [|done]. intros ?%Hsub. done.
      * by rewrite (proj2 (String.eqb_neq k' k)).
Qed.

End DictFacts.

(** ** The environment packager, [wsl_env] *)

Section WslEnvFacts.

Import WslExec.
Context {V : Type}.
Implicit Types (env e out : Dict.t V) (k key n : string) (ks : list string).

Lemma get_lt i (s : string) : i < String.length s → ∃ c, String.get i s = Some c.
Proof.
  revert i. induction s as [|c s IH]; intros i; simpl; [lia|].
  destruct i as [|i]; [by eexists|]. intros Hi. apply IH. lia.
Qed.

Lemma slice_to_length i (s : string) :
  String.length (Py.slice_to i s) = i `min` String.length s.
Proof.
  revert i. induction s as [|c s IH]; intros [|i]; simpl; try done.
  by rewrite IH.
Qed.

Lemma index_neg_Ok i (s : string) :
  0 < i → i ≤ String.length s → returns (Py.index_neg i s).
Proof.
  intros Hi Hs. unfold Py.index_neg, Py.index.
  rewrite (proj2 (Nat.leb_le _ _) Hs).
  destruct (get_lt (String.length s - i) s) as [c ->]; [lia|]. by eexists.
Qed.

(** The test raises [IndexError] on a key of fewer than two characters,
    and on no other key. *)
Lemma has_flag_short key : String.length key < 2 → has_flag key = Raise IndexError.
Proof.
  intros Hk. unfold has_flag, Py.index_neg.
  by rewrite (proj2 (Nat.leb_gt _ _) Hk).
Qed.

Lemma has_flag_long key : 2 ≤ String.length key → has_flag key = Ok (flagged key).
Proof.
  intros Hk. unfold flagged, has_flag.
  destruct (index_neg_Ok 2 key) as [c ->]; [lia|done|]. simpl.
  destruct (Ascii.eqb c "/"); [|done].
  destruct (index_neg_Ok 1 key) as [f ->]; [lia|lia|]. done.
Qed.

Lemma has_flag_returns key : returns (has_flag key) ↔ 2 ≤ String.length key.
Proof.
  split.
  - intros [b Hb]. destruct (decide (2 ≤ String.length key)) as [|Hk]; [done|].
    rewrite has_flag_short in Hb; [done|lia].
  - intros Hk. rewrite (has_flag_long _ Hk). by eexists.
Qed.

Lemma flagged_long key : flagged key = true → 2 ≤ String.length key.
Proof.
  intros Hf. destruct (decide (2 ≤ String.length key)) as [|Hk]; [done|].
  unfold flagged in Hf. rewrite has_flag_short in Hf; [done|lia].
Qed.

Lemma unflagged_length key :
  String.length (unflagged key) = String.length key - 2.
Proof. unfold unflagged, Py.slice_to_neg. rewrite slice_to_length. lia. Qed.

Lemma unflagged_ne key : flagged key = true → unflagged key ≠ key.
Proof.
  intros Hk%flagged_long Heq. pose proof (unflagged_length key) as Hl.
  rewrite Heq in Hl. lia.
Qed.

(** One turn of the loop. *)
Lemma strip_flags_cons key ks e out :
  strip_flags (key :: ks) e = Ok out →
  2 ≤ String.length key ∧
  if flagged key then
    ∃ v e', Dict.pop key e = Ok (v, e') ∧
            strip_flags ks (Dict.set (unflagged key) v e') = Ok out
  else strip_flags ks e = Ok out.
Proof.
  cbn [strip_flags]. intros H.
  assert (2 ≤ String.length key) as Hk.
  { apply has_flag_returns. destruct (has_flag key) as [b|]; [by exists b|done]. }
  split; [done|]. rewrite (has_flag_long _ Hk) in H. simpl in H.
  destruct (flagged key); [|done].
  destruct (Dict.pop key e) as [[v e']|]; [|done]. by exists v, e'.
Qed.

Lemma strip_flags_app ks ks' e out :
  strip_flags (ks ++ ks') e = Ok out →
  ∃ e', strip_flags ks e = Ok e' ∧ strip_flags ks' e' = Ok out.
Proof.
  revert e. induction ks as [|key ks IH]; intros e; [by exists e|].
  rewrite <-app_comm_cons. cbn [strip_flags].
  destruct (has_flag key) as [b|]; [|done]. simpl.
  destruct b; [|apply IH].
  destruct (Dict.pop key e) as [[v e1]|]; [|done]. apply IH.
Qed.

Lemma strip_flags_wf ks e out :
  strip_flags ks e = Ok out → Dict.wf e → Dict.wf out.
Proof.
  revert e. induction ks as [|key ks IH]; intros e; [by intros [= ->]|].
  intros [_ H]%strip_flags_cons Hwf. destruct (flagged key); [|by eapply IH].
  destruct H as (v & e' & Hpop & H). eapply IH; [done|].
  apply wf_set. by apply (pop_Ok _ _ _ _ Hpop).
Qed.

(** A name that the loop neither pops nor assigns keeps its entry. *)
Lemma strip_flags_frame n ks e out :
  strip_flags ks e = Ok out →
  (∀ k, k ∈ ks → flagged k = true → k ≠ n ∧ unflagged k ≠ n) →
  Dict.get n out = Dict.get n e.
Proof.
  revert e. induction ks as [|key ks IH]; intros e; [by intros [= ->]|].
  intros [_ H]%strip_flags_cons Hn.
  assert (∀ k, k ∈ ks → flagged k = true → k ≠ n ∧ unflagged k ≠ n) as Hks.
  { intros k Hk. apply Hn, elem_of_cons. by right. }
  destruct (flagged key) eqn:Hf; [|by apply IH].
  destruct H as (v & e' & Hpop & H).
  destruct (Hn key) as [Hkey Hun]; [apply elem_of_cons; by left|done|].
  rewrite (IH _ H Hks), get_set, decide_False by done.
  by apply (pop_Ok _ _ _ _ Hpop).
Qed.

(** The loop completes on keys of two characters or more that are all
    present when they are visited. *)
Lemma strip_flags_returns ks e :
  Dict.wf e → NoDup ks →
  (∀ k, k ∈ ks → k ∈ Dict.keys e ∧ 2 ≤ String.length k) →
  returns (strip_flags ks e).
Proof.
  revert e. induction ks as [|key ks IH]; intros e Hwf Hnd Hks; [by exists e|].
  apply NoDup_cons in Hnd as [Hkey Hnd].
  destruct (Hks key) as [Hin Hlen]; [apply elem_of_cons; by left|].
  cbn [strip_flags]. rewrite (has_flag_long _ Hlen). simpl.
  destruct (flagged key).
  - destruct (pop_present _ _ Hin) as [[v e'] Hpop]. rewrite Hpop. simpl.
    destruct (pop_Ok _ _ _ _ Hpop) as (_ & _ & _ & Hsup & Hwf').
    apply IH; [by apply wf_set, Hwf'|done|].
    intros k Hk. destruct (Hks k) as [Hke Hkl]; [apply elem_of_cons; by right|].
    split; [|done]. apply elem_keys_set. right. apply Hsup; [done|].
    by intros ->.
  - apply IH; [done..|]. intros k Hk. apply Hks, elem_of_cons. by right.
Qed.

(** On keys that are present, the loop raises nothing but [IndexError]. *)
Lemma strip_flags_raises ks e x :
  Dict.wf e → NoDup ks → (∀ k, k ∈ ks → k ∈ Dict.keys e) →
  strip_flags ks e = Raise x → x = IndexError.
Proof.
  revert e. induction ks as [|key ks IH]; intros e Hwf Hnd Hks; [done|].
  apply NoDup_cons in Hnd as [Hkey Hnd].
  assert (key ∈ Dict.keys e) as Hin by (apply Hks, elem_of_cons; by left).
  cbn [strip_flags].
  destruct (decide (2 ≤ String.length key)) as [Hlen|Hlen];
    [|rewrite has_flag_short by lia; by intros [= <-]].
  rewrite (has_flag_long _ Hlen). cbn [mbind result_bind].
  destruct (flagged key).
  - destruct (pop_present _ _ Hin) as [[v e'] Hpop]. rewrite Hpop.
    cbn [mbind result_bind].
    destruct (pop_Ok _ _ _ _ Hpop) as (_ & _ & _ & Hsup & Hwf').
    apply IH; [by apply wf_set, Hwf'|done|].
    intros k Hk. apply elem_keys_set. right. apply Hsup.
    + apply Hks, elem_of_cons. by right.
    + by intros ->.
  - apply IH; [done..|]. intros k Hk. apply Hks, elem_of_cons. by right.
Qed.

Lemma strip_flags_long ks e out :
  strip_flags ks e = Ok out → ∀ k, k ∈ ks → 2 ≤ String.length k.
Proof.
  revert e. induction ks as [|key ks IH]; intros e; [by intros _ k ?%elem_of_nil|].
  intros [Hlen H]%strip_flags_cons k [->|Hk]%elem_of_cons; [done|].
  destruct (flagged key); [|by eapply IH].
  destruct H as (v & e' & _ & H). by eapply IH.
Qed.

Lemma flagged_WSLENV : flagged "WSLENV" = false.
Proof. reflexivity. Qed.

(** The keys visited by the loop: those of the input, and [WSLENV]. *)
Lemma elem_snapshot mk env k :
  k ∈ Dict.keys (Dict.set "WSLENV" (mk (Py.join ":" (Dict.keys env))) env) ↔
  k = "WSLENV" ∨ k ∈ Dict.keys env.
Proof. apply elem_keys_set. Qed.

Lemma snapshot_flagged mk env k :
  k ∈ Dict.keys (Dict.set "WSLENV" (mk (Py.join ":" (Dict.keys env))) env) →
  flagged k = true → k ∈ Dict.keys env.
Proof. intros [->|?]%elem_snapshot Hf; [by rewrite flagged_WSLENV in Hf|done]. Qed.

(** [wsl_env] returns exactly on the mappings all of whose keys have two
    characters or more. *)
Lemma wsl_env_returns_iff mk env :
  Dict.wf env →
  returns (wsl_env mk env) ↔ ∀ k, k ∈ Dict.keys env → 2 ≤ String.length k.
Proof.
  intros Hwf. unfold wsl_env. split.
  - intros [out Hout] k Hk. apply (strip_flags_long _ _ _ Hout).
    apply elem_snapshot. by right.
  - intros Hlen. apply strip_flags_returns; [by apply wf_set|by apply wf_set|].
    intros k Hk. split; [done|].
    apply elem_snapshot in Hk as [->|Hk]; [simpl; lia|by apply Hlen].
Qed.

(** Unless a flagged key has the unflagged name [WSLENV], the [WSLENV]
    entry of the result lists the keys of the input in their order. *)
Lemma wsl_env_manifest mk env out :
  wsl_env mk env = Ok out →
  (∀ k, k ∈ Dict.keys env → flagged k = true → unflagged k ≠ "WSLENV") →
  Dict.get "WSLENV" out = Some (mk (Py.join ":" (Dict.keys env))).
Proof.
  unfold wsl_env. intros Hout Hfree.
  rewrite (strip_flags_frame "WSLENV" _ _ _ Hout).
  - by rewrite get_set, decide_True.
  - intros k Hk Hf. split.
    + intros ->. by rewrite flagged_WSLENV in Hf.
    + apply Hfree; [|done]. by eapply snapshot_flagged.
Qed.

End WslEnvFacts.

(** C2 does not hold of the code: on every mapping with a key of fewer than
    two characters, [{"A": "1"}] for one, [wsl_env] raises [IndexError] at
    [key[-2]] and returns nothing. *)
Theorem wsl_env_short_key_raises {V} (mk : string → V) (env : Dict.t V) (k : string) :
  Dict.wf env → k ∈ Dict.keys env → String.length k < 2 →
  WslExec.wsl_env mk env = Raise IndexError.
Proof.
  intros Hwf Hk Hshort.
  destruct (WslExec.wsl_env mk env) as [out|x] eqn:Henv.
  - assert (2 ≤ String.length k); [|lia].
    apply (wsl_env_returns_iff mk env Hwf); [by exists out|done].
  - f_equal. unfold WslExec.wsl_env in Henv.
    eapply strip_flags_raises; [| |done|done]; [by apply wf_set..].
Qed.

Lemma wsl_env_short_key_raises_witness :
  WslExec.wsl_env id [("A", "1")] = Raise IndexError.
Proof.
  apply (wsl_env_short_key_raises id [("A", "1")] "A").
  - unfold Dict.wf. compute_done.
  - compute_done.
  - simpl. lia.
Defined.

(** C3, as amended: when [wsl_env] returns, every flagged key of the input
    that collides with no other flagged key of the input (no shared
    unflagged name, neither is the unflagged name of the other) is absent
    from the output, and its value is found under its unflagged name. *)
Theorem wsl_env_reemits_flagged {V} (mk : string → V) (env out : Dict.t V)
    (k : string) (v : V) :
  Dict.wf env →
  WslExec.wsl_env mk env = Ok out →
  (k, v) ∈ env → WslExec.flagged k = true →
  (∀ k', k' ∈ Dict.keys env → WslExec.flagged k' = true → k' ≠ k →
         ¬ WslExec.collide k k') →
  Dict.get (WslExec.unflagged k) out = Some v ∧ Dict.get k out = None.
Proof.
  unfold WslExec.wsl_env. intros Hwf Hout Hkv Hk Hfree.
  set (env0 := Dict.set "WSLENV" (mk (Py.join ":" (Dict.keys env))) env) in *.
  assert (Dict.wf env0) as Hwf0 by by apply wf_set.
  assert (Dict.get k env0 = Some v) as Hget0.
  { unfold env0. rewrite get_set, decide_False; [by apply get_elem|].
    intros <-. by rewrite flagged_WSLENV in Hk. }
  assert (k ∈ Dict.keys env0) as Hin0.
  { apply elem_snapshot. right. apply list_elem_of_fmap. by exists (k, v). }
  apply list_elem_of_split in Hin0 as (pre & post & Hks).
  pose proof Hwf0 as Hnd. unfold Dict.wf in Hnd. rewrite Hks in Hnd.
  apply NoDup_app in Hnd as (_ & Hpre & [Hpost _]%NoDup_cons).
  assert (∀ k', k' ∈ pre ∨ k' ∈ post → WslExec.flagged k' = true →
                k' ≠ k ∧ ¬ WslExec.collide k k') as Hothers.
  { intros k' Hk' Hf'.
    assert (k' ≠ k) as Hne.
    { intros ->. destruct Hk' as [Hk'|Hk']; [|done].
      apply (Hpre _ Hk'). apply elem_of_cons. by left. }
    split; [done|]. apply Hfree; [|done..].
    apply (snapshot_flagged mk); [|done]. fold env0. rewrite Hks.
    rewrite elem_of_app, elem_of_cons. tauto. }
  rewrite Hks in Hout. apply strip_flags_app in Hout as (e1 & Hpre1 & Hout).
  assert (Dict.get k e1 = Some v) as Hget1.
  { rewrite (strip_flags_frame k _ _ _ Hpre1); [done|].
    intros k' Hk' Hf'. destruct (Hothers k') as [Hne Hcol]; [by left|done|].
    split; [done|]. intros Heq. apply Hcol. right. by left. }
  pose proof (strip_flags_wf _ _ _ Hpre1 Hwf0) as Hwf1.
  apply strip_flags_cons in Hout as [_ Hout]. rewrite Hk in Hout.
  destruct Hout as (v' & e2 & Hpop & Hout).
  destruct (pop_Ok _ _ _ _ Hpop) as (Hv' & Hframe & _ & _ & Hwf2).
  destruct (Hwf2 Hwf1) as [_ Hnone].
  assert (v' = v) as -> by congruence.
  split.
  - rewrite (strip_flags_frame _ _ _ _ Hout); [by rewrite get_set, decide_True|].
    intros k' Hk' Hf'. destruct (Hothers k') as [Hne Hcol]; [by right|done|].
    split.
    + intros ->. apply Hcol. right. by right.
    + intros Heq. apply Hcol. by left.
  - rewrite (strip_flags_frame _ _ _ _ Hout).
    + rewrite get_set, decide_False; [done|]. by apply unflagged_ne.
    + intros k' Hk' Hf'. destruct (Hothers k') as [Hne Hcol]; [by right|done|].
      split; [done|]. intros Heq. apply Hcol. right. by left.
Qed.

Lemma wsl_env_reemits_flagged_witness :
  Dict.get (WslExec.unflagged "PATH/p")
    [("PLAIN", "untranslated"); ("WSLENV", "PLAIN:LIST/l:PATH/p");
     ("LIST", "%PATH%"); ("PATH", "C:\x")] = Some "C:\x" ∧
  Dict.get "PATH/p"
    [("PLAIN", "untranslated"); ("WSLENV", "PLAIN:LIST/l:PATH/p");
     ("LIST", "%PATH%"); ("PATH", "C:\x")] = None.
Proof.
  apply (wsl_env_reemits_flagged id
           [("PLAIN", "untranslated"); ("LIST/l", "%PATH%"); ("PATH/p", "C:\x")]).
  - unfold Dict.wf. compute_done.
  - reflexivity.
  - compute_done.
  - reflexivity.
  - rewrite <-Forall_forall. unfold WslExec.collide. compute_done.
Defined.

Example wsl_env_path :
  WslExec.wsl_env id [("PATH/p", "C:\x")] = Ok [("WSLENV", "PATH/p"); ("PATH", "C:\x")].
Proof. reflexivity. Qed.

(** C3, as stated, fails: of two flagged keys with one unflagged name, only
    the value of the last is kept. *)
Lemma wsl_env_reemits_every_fails :
  ¬ ∀ (env out : Dict.t string) (k v : string),
      Dict.wf env → WslExec.wsl_env id env = Ok out →
      (k, v) ∈ env → WslExec.flagged k = true →
      Dict.get (WslExec.unflagged k) out = Some v ∧ Dict.get k out = None.
Proof.
  intros H.
  destruct (H [("PATH/p", "a"); ("PATH/l", "b")]
              [("WSLENV", "PATH/p:PATH/l"); ("PATH", "b")] "PATH/p" "a")
    as [Hget _].
  - unfold Dict.wf. compute_done.
  - reflexivity.
  - compute_done.
  - reflexivity.
  - vm_compute in Hget. discriminate Hget.
Qed.

(** C8, as amended: when [wsl_env] returns and no flagged key of the input
    has the unflagged name [WSLENV], the [WSLENV] entry of the result is the
    colon-joined list of the keys of the input, flag suffixes included, in
    the order of the input. *)
Theorem wsl_env_manifest_lists_keys {V} (mk : string → V) (env out : Dict.t V) :
  WslExec.wsl_env mk env = Ok out →
  (∀ k, k ∈ Dict.keys env → WslExec.flagged k = true →
        WslExec.unflagged k ≠ "WSLENV") →
  Dict.get "WSLENV" out = Some (mk (Py.join ":" (Dict.keys env))).
Proof.
  unfold WslExec.wsl_env. intros Hout Hfree.
  rewrite (strip_flags_frame "WSLENV" _ _ _ Hout).
  - by rewrite get_set, decide_True.
  - intros k Hk Hf. split.
    + intros ->. by rewrite flagged_WSLENV in Hf.
    + apply Hfree; [|done]. by eapply snapshot_flagged.
Qed.

Lemma wsl_env_manifest_lists_keys_witness :
  Dict.get "WSLENV"
    [("PLAIN", "untranslated"); ("WSLENV", "PLAIN:LIST/l:PATH/p");
     ("LIST", "%PATH%"); ("PATH", "C:\x")] =
  Some (id (Py.join ":" (Dict.keys
    [("PLAIN", "untranslated"); ("LIST/l", "%PATH%"); ("PATH/p", "C:\x")]))).
Proof.
  apply (wsl_env_manifest_lists_keys id
           [("PLAIN", "untranslated"); ("LIST/l", "%PATH%"); ("PATH/p", "C:\x")]).
  - reflexivity.
  - rewrite <-Forall_forall. compute_done.
Defined.

(** C8, as stated, fails: a flagged key whose unflagged name is [WSLENV]
    takes the place of the list of names; on [{"WSLENV/p": "x"}] the result
    holds [WSLENV = "x"], not ["WSLENV/p"]. *)
Lemma wsl_env_manifest_every_fails :
  ¬ ∀ (env out : Dict.t string),
      Dict.wf env → WslExec.wsl_env id env = Ok out →
      Dict.get "WSLENV" out = Some (Py.join ":" (Dict.keys env)).
Proof.
  intros H.
  specialize (H [("WSLENV/p", "x")] [("WSLENV", "x")]).
  assert (Dict.wf [("WSLENV/p", "x")]) as Hwf by (unfold Dict.wf; compute_done).
  specialize (H Hwf eq_refl). vm_compute in H. discriminate H.
Qed.

Example wsl_env_manifest_overwritten :
  WslExec.wsl_env id [("WSLENV/p", "x")] = Ok [("WSLENV", "x")].
Proof. reflexivity. Qed.

(** ** The orchestration, [run] *)

Section RunFacts.

Import WslExec.
Implicit Types (order : list string) (vars : gmap string string).

Lemma unix_name_inj v w : unix_name v = unix_name w → v = w.
Proof. unfold unix_name. by intros [=]. Qed.

(** No path variable has the name of a translated one. *)
Lemma path_variables_plain v w :
  v ∈ path_variables → w ∈ path_variables → v ≠ unix_name w.
Proof.
  assert (Forall (λ v, Forall (λ w, v ≠ unix_name w) path_variables)
                 path_variables) as H by compute_done.
  intros Hv Hw. rewrite Forall_forall in H. specialize (H v Hv).
  rewrite Forall_forall in H. by apply H.
Qed.

Lemma host_variables_plain v w :
  v ∈ host_variables → w ∈ path_variables → v ≠ unix_name w.
Proof.
  assert (Forall (λ v, Forall (λ w, v ≠ unix_name w) path_variables)
                 host_variables) as H by compute_done.
  intros Hv Hw. rewrite Forall_forall in H. specialize (H v Hv).
  rewrite Forall_forall in H. by apply H.
Qed.

Lemma add_unix_variables_cons var order vars vars' :
  add_unix_variables (var :: order) vars = Ok vars' →
  ∃ x t, vars !! var = Some x ∧ wsl_path x = Ok t ∧
         add_unix_variables order (<[unix_name var := t]> vars) = Ok vars'.
Proof.
  cbn [add_unix_variables]. unfold lookup_var.
  destruct (vars !! var) as [x|]; [|done]. cbn [mbind result_bind].
  destruct (wsl_path x) as [t|] eqn:Ht; [|done]. cbn [mbind result_bind].
  intros H. by exists x, t.
Qed.

(** Only the translated names are assigned. *)
Lemma add_unix_variables_frame order vars vars' k :
  add_unix_variables order vars = Ok vars' →
  k ∉ unix_name <$> order → vars' !! k = vars !! k.
Proof.
  revert vars. induction order as [|var order IH]; intros vars; [by intros [= ->]|].
  intros (x & t & _ & _ & H)%add_unix_variables_cons.
  rewrite fmap_cons, not_elem_of_cons. intros [Hk Hks].
  by rewrite (IH _ H Hks), lookup_insert_ne.
Qed.

Lemma add_unix_variables_counterparts order vars vars' :
  NoDup order →
  (∀ v w, v ∈ order → w ∈ order → v ≠ unix_name w) →
  add_unix_variables order vars = Ok vars' →
  ∀ v, v ∈ order →
    ∃ x t, vars !! v = Some x ∧ wsl_path x = Ok t ∧ vars' !! unix_name v = Some t.
Proof.
  revert vars. induction order as [|var order IH]; intros vars Hnd Hplain;
    [by intros _ v ?%elem_of_nil|].
  apply NoDup_cons in Hnd as [Hvar Hnd].
  intros (x & t & Hx & Ht & H)%add_unix_variables_cons v [->|Hv]%elem_of_cons.
  - exists x, t. split_and!; [done..|].
    rewrite (add_unix_variables_frame _ _ _ _ H), lookup_insert_eq; [done|].
    intros (w & ->%unix_name_inj & Hw)%list_elem_of_fmap. done.
  - assert (∀ a b, a ∈ order → b ∈ order → a ≠ unix_name b) as Hplain'.
    { intros a b Ha Hb. apply Hplain; apply elem_of_cons; by right. }
    destruct (IH _ Hnd Hplain' H v Hv) as (x' & t' & Hx' & Ht' & Hv').
    exists x', t'. split_and!; [|done..].
    rewrite lookup_insert_ne in Hx'; [done|].
    intros Heq. eapply Hplain; [| |by symmetry]; apply elem_of_cons; [by right|by left].
Qed.

(** The loop completes exactly when the host supplies every path
    variable. *)
Lemma add_unix_variables_returns order vars :
  (∀ v w, v ∈ order → w ∈ order → v ≠ unix_name w) →
  returns (add_unix_variables order vars) ↔ ∀ v, v ∈ order → is_Some (vars !! v).
Proof.
  revert vars. induction order as [|var order IH]; intros vars Hplain.
  { split; [by intros _ v ?%elem_of_nil|by exists vars]. }
  assert (∀ v w, v ∈ order → w ∈ order → v ≠ unix_name w) as Hplain'.
  { intros a b Ha Hb. apply Hplain; apply elem_of_cons; by right. }
  assert (∀ t v, v ∈ order → (<[unix_name var := t]> vars) !! v = vars !! v) as Hread.
  { intros t v Hv. apply lookup_insert_ne. intros Heq.
    eapply Hplain; [| |by symmetry]; apply elem_of_cons; [by right|by left]. }
  split.
  - intros [vars' (x & t & Hx & _ & H)%add_unix_variables_cons] v [->|Hv]%elem_of_cons;
      [by exists x|].
    rewrite <-(Hread t v Hv). eapply IH; [done|by exists vars'|done].
  - intros Hall. destruct (Hall var) as [x Hx]; [apply elem_of_cons; by left|].
    destruct (wsl_path_returns x) as [t Ht].
    cbn [add_unix_variables]. unfold lookup_var. rewrite Hx. simpl. rewrite Ht. simpl.
    apply IH; [done|]. intros v Hv. rewrite (Hread t v Hv).
    apply Hall, elem_of_cons. by right.
Qed.

End RunFacts.

(** C7: the loop of [run] over the path variables, in whatever order the
    set is visited, leaves every entry other than the translated names as
    it was, the variables of the host among them, and maps the translated
    name of each path variable to the translation of its value. *)
Theorem add_unix_variables_keeps_originals
    (order : list string) (vars vars' : gmap string string) :
  order ≡ₚ WslExec.path_variables →
  WslExec.add_unix_variables order vars = Ok vars' →
  (∀ k, k ∉ WslExec.unix_name <$> WslExec.path_variables → vars' !! k = vars !! k) ∧
  (∀ k, k ∈ WslExec.host_variables → vars' !! k = vars !! k) ∧
  (∀ v, v ∈ WslExec.path_variables →
     ∃ x t, vars !! v = Some x ∧ WslExec.wsl_path x = Ok t ∧
            vars' !! WslExec.unix_name v = Some t).
Proof.
  intros Hperm Hadd.
  assert (∀ k, k ∉ WslExec.unix_name <$> WslExec.path_variables →
               vars' !! k = vars !! k) as Hframe.
  { intros k Hk. apply (add_unix_variables_frame _ _ _ _ Hadd). by rewrite Hperm. }
  split_and!; [done| |].
  - intros k Hk. apply Hframe.
    intros (w & -> & Hw)%list_elem_of_fmap. by eapply host_variables_plain.
  - intros v Hv. eapply add_unix_variables_counterparts; [| |done|].
    + rewrite Hperm. unfold WslExec.path_variables. compute_done.
    + intros a b. rewrite !Hperm. apply path_variables_plain.
    + by rewrite Hperm.
Qed.

Lemma add_unix_variables_keeps_originals_witness :
  ∃ vars',
    WslExec.add_unix_variables (reverse WslExec.path_variables) sample_variables
      = Ok vars' ∧
    vars' !! "folder" = Some "C:\proj" ∧
    vars' !! "unix_folder" = Some "/mnt/c/proj".
Proof.
  destruct (WslExec.add_unix_variables (reverse WslExec.path_variables)
              sample_variables) as [vars'|] eqn:Hadd;
    [|vm_compute in Hadd; discriminate Hadd].
  exists vars'. split; [reflexivity|].
  destruct (add_unix_variables_keeps_originals _ _ _
              (reverse_Permutation WslExec.path_variables) Hadd)
    as (_ & Hhost & Hunix).
  split.
  - rewrite Hhost; [reflexivity|]. compute_done.
  - destruct (Hunix "folder" ltac:(compute_done)) as (x & t & Hx & Ht & Hu).
    change (WslExec.unix_name "folder") with "unix_folder" in Hu. rewrite Hu.
    vm_compute in Hx. injection Hx as <-. vm_compute in Ht. by injection Ht as <-.
Defined.

(** C6: whatever the raw input holds, the arguments handed to the
    execution engine have no [shell_cmd] and no [working_dir], their [cmd]
    is computed from [wsl_cmd] and [wsl_working_dir], and their [env] is
    absent or computed from [wsl_env]. *)
Theorem run_never_inherits
    (expand : gmap string string → value → value)
    (vars : gmap string string) (order : list string)
    (cmd : list string) (wd : string) (env : option (Dict.t value))
    (kwargs args : gmap string value) :
  WslExec.run expand vars order cmd wd env kwargs = Ok args →
  args !! "shell_cmd" = None ∧
  args !! "working_dir" = None ∧
  ∃ vars' cmd',
    WslExec.add_unix_variables order vars = Ok vars' ∧
    WslExec.wsl_cmd cmd wd = Ok cmd' ∧
    args !! "cmd" = Some (expand vars' (of_strings cmd')) ∧
    match env with
    | Some e =>
        if bool_decide (e = []) then args !! "env" = None
        else ∃ e', WslExec.wsl_env VStr e = Ok e' ∧
                   args !! "env" = Some (expand vars' (VDict e'))
    | None => args !! "env" = None
    end.
Proof.
  unfold WslExec.run. intros Hrun.
  destruct (WslExec.wsl_cmd cmd wd) as [cmd'|] eqn:Hcmd; [|done].
  cbn [mbind result_bind] in Hrun.
  assert (∀ k, k ∈ WslExec.dropped →
    filter (λ kv : string * value, kv.1 ∉ WslExec.dropped) kwargs !! k = None) as Hdrop.
  { intros k Hk. apply map_lookup_filter_None_2. right. intros x _ Hn. by apply Hn. }
  destruct env as [e|]; [destruct (bool_decide (e = [])) eqn:He|].
  - cbn [mbind result_bind] in Hrun.
    destruct (WslExec.add_unix_variables order vars) as [vars'|] eqn:Hadd; [|done].
    injection Hrun as <-. rewrite !lookup_fmap.
    rewrite !(lookup_insert_ne _ "cmd" "shell_cmd"), !(lookup_insert_ne _ "cmd" "working_dir"),
      (lookup_insert_ne _ "cmd" "env"), !lookup_insert_eq, !Hdrop
      by first [done|compute_done].
    split_and!; [done..|]. by exists vars', cmd'.
  - destruct (WslExec.wsl_env VStr e) as [e'|] eqn:Henv; [|done].
    cbn [mbind result_bind] in Hrun.
    destruct (WslExec.add_unix_variables order vars) as [vars'|] eqn:Hadd; [|done].
    injection Hrun as <-. rewrite !lookup_fmap.
    rewrite !(lookup_insert_ne _ _ "shell_cmd"), !(lookup_insert_ne _ _ "working_dir"),
      (lookup_insert_ne _ "env" "cmd"), !lookup_insert_eq, !Hdrop
      by first [done|compute_done].
    split_and!; [done..|]. exists vars', cmd'. split_and!; [done..|]. by exists e'.
  - cbn [mbind result_bind] in Hrun.
    destruct (WslExec.add_unix_variables order vars) as [vars'|] eqn:Hadd; [|done].
    injection Hrun as <-. rewrite !lookup_fmap.
    rewrite !(lookup_insert_ne _ "cmd" "shell_cmd"), !(lookup_insert_ne _ "cmd" "working_dir"),
      (lookup_insert_ne _ "cmd" "env"), !lookup_insert_eq, !Hdrop
      by first [done|compute_done].
    split_and!; [done..|]. by exists vars', cmd'.
Qed.

Lemma run_never_inherits_witness :
  ∃ args,
    WslExec.run (λ _ v, v) sample_variables WslExec.path_variables
      ["bundle"; "exec"; "rake"] "C:\proj" (Some sample_env) sample_kwargs = Ok args ∧
    args !! "shell_cmd" = None ∧ args !! "working_dir" = None ∧
    is_Some (args !! "cmd").
Proof.
  destruct (WslExec.run (λ _ v, v) sample_variables WslExec.path_variables
              ["bundle"; "exec"; "rake"] "C:\proj" (Some sample_env) sample_kwargs)
    as [args|] eqn:Hrun; [|vm_compute in Hrun; discriminate Hrun].
  exists args. split; [reflexivity|].
  destruct (run_never_inherits _ _ _ _ _ _ _ _ Hrun)
    as (Hshell & Hwd & vars' & cmd' & _ & _ & Hcmd & _).
  rewrite Hcmd. eauto.
Defined.

Section RunMore.

Import WslExec.
Variable expand : gmap string string → value → value.
Implicit Types (vars : gmap string string) (kwargs args : gmap string value).

(** X10: every parameter of the raw input other than [cmd], [env],
    [shell_cmd] and [working_dir] reaches the execution engine, with the
    variables expanded, and no parameter is added under another name. *)
Lemma run_passes_through vars order cmd wd env kwargs args k :
  run expand vars order cmd wd env kwargs = Ok args →
  k ∉ ["cmd"; "env"; "shell_cmd"; "working_dir"] →
  ∃ vars', add_unix_variables order vars = Ok vars' ∧
           args !! k = expand vars' <$> kwargs !! k.
Proof.
  unfold run. intros Hrun Hk.
  apply not_elem_of_cons in Hk as [Hcmd Hk].
  apply not_elem_of_cons in Hk as [Henv Hk].
  destruct (wsl_cmd cmd wd) as [cmd'|]; [|done].
  cbn [mbind result_bind] in Hrun.
  assert (filter (λ kv : string * value, kv.1 ∉ dropped) kwargs !! k = kwargs !! k)
    as Hkeep.
  { destruct (kwargs !! k) as [x|] eqn:Hx.
    - apply map_lookup_filter_Some_2; [done|]. cbn [fst]. unfold dropped.
      rewrite not_elem_of_cons. by split.
    - apply map_lookup_filter_None_2. by left. }
  assert (∀ m : result (gmap string value),
    (∀ a, m = Ok a → a !! k = kwargs !! k) →
    m ≫= (λ wsl_args, add_unix_variables order vars
            ≫= λ variables, Ok (expand variables <$> (wsl_args : gmap string value)))
      = Ok args →
    ∃ vars', add_unix_variables order vars = Ok vars' ∧
             args !! k = expand vars' <$> kwargs !! k) as Hend.
  { intros [a|] Ha H; [|done]. cbn [mbind result_bind] in H.
    destruct (add_unix_variables order vars) as [vars'|]; [|done].
    injection H as <-. exists vars'. by rewrite lookup_fmap, (Ha a eq_refl). }
  apply Hend with (2 := Hrun). intros a Ha.
  destruct env as [e|]; [destruct (bool_decide (e = []))|].
  - injection Ha as <-. by rewrite lookup_insert_ne.
  - destruct (wsl_env VStr e) as [e'|]; [|done]. injection Ha as <-.
    by rewrite !lookup_insert_ne.
  - injection Ha as <-. by rewrite lookup_insert_ne.
Qed.

(** [run] reaches the execution engine when the host supplies the six
    path variables and every key of the environment has two characters
    or more. *)
Lemma run_returns vars order cmd wd env kwargs :
  order ≡ₚ path_variables →
  (∀ v, v ∈ path_variables → is_Some (vars !! v)) →
  (∀ e, env = Some e → Dict.wf e ∧ ∀ k, k ∈ Dict.keys e → 2 ≤ String.length k) →
  returns (run expand vars order cmd wd env kwargs).
Proof.
  intros Hperm Hvars Henv. unfold run.
  destruct (wsl_cmd_returns cmd wd) as [cmd' ->]. cbn [mbind result_bind].
  assert (returns (add_unix_variables order vars)) as [vars' Hadd].
  { apply add_unix_variables_returns.
    - intros a b. rewrite !Hperm. apply path_variables_plain.
    - intros v. rewrite Hperm. apply Hvars. }
  destruct env as [e|]; [destruct (bool_decide (e = []))|];
    cbn [mbind result_bind]; try (rewrite Hadd; by eexists).
  destruct (Henv e eq_refl) as [Hwf Hlen].
  destruct (proj2 (wsl_env_returns_iff VStr e Hwf) Hlen) as [e' ->].
  cbn [mbind result_bind]. rewrite Hadd. by eexists.
Qed.

End RunMore.

(** ** The first version, [main.py] *)

Section MainFacts.

(** Both versions end with the same slash normalisation. *)
Lemma main_wsl_path_normalizes s :
  Main.wsl_path s = Py.replace Py.backslash Py.slash (Re.sub Main.unc_pattern "" s).
Proof. apply sub_backslash. Qed.

(** The first version knows one distribution, and no drive rewrite. *)
Example main_wsl_path_ubuntu : Main.wsl_path "\\wsl.localhost\Ubuntu\a\b" = "/a/b".
Proof. reflexivity. Qed.

Example main_wsl_path_distro :
  Main.wsl_path "\\wsl.localhost\Debian\a\b" = "//wsl.localhost/Debian/a/b".
Proof. reflexivity. Qed.

Example main_wsl_path_drive : Main.wsl_path "X:\a\b" = "X:/a/b".
Proof. reflexivity. Qed.

(** It keeps the flagged keys of the environment as they are. *)
Example main_wsl_env_flagged :
  Main.wsl_env id [("PATH/p", "C:\x")] = [("PATH/p", "C:\x"); ("WSLENV", "PATH/p")].
Proof. reflexivity. Qed.

(** It overwrites the path variables of the host. *)
Example main_convert_variables_folder :
  (vars ← Main.convert_variables Main.converted sample_variables;
   Ok (vars !! "folder")) = Ok (Some "C:/proj").
Proof. vm_compute. reflexivity. Qed.

(** It hands a [working_dir] of the raw input on to the engine. *)
Example main_run_inherits :
  (args ← Main.run (λ _ v, v) sample_variables
             (<["wsl_cmd" := of_strings ["ls"]]> sample_kwargs);
   Ok (args !! "working_dir", args !! "cmd")) =
  Ok (Some (VStr "C:\old"), Some (of_strings ["wsl"; "ls"])).
Proof. vm_compute. reflexivity. Qed.

End MainFacts.

(** * Further properties of the code *)

(** ** More on [wsl_path] of [wsl_exec.py] *)

Section WslPathMore.

Import WslExec.
Implicit Types (path p q rest distro : string).

Lemma skip_not_all x (s : string) : Py.mem x s = false → Re.skip_not x s = "".
Proof.
  induction s as [|c s IH]; simpl; [done|].
  intros [-> Hs]%orb_false_elim. by apply IH.
Qed.

(** The match at the head of [\\wsl.localhost\<distro>] runs to the end. *)
Lemma match_unc_root distro :
  Py.mem Py.backslash distro = false →
  Re.match_at unc_pattern (unc_prefix +:+ distro) = Some "".
Proof.
  intros Hd. unfold Re.match_at, unc_pattern. cbn [Re.atoms Re.tail_not].
  rewrite match_lits, startswith_app, slice_from_app.
  by rewrite skip_not_all.
Qed.

End WslPathMore.

(** X1: [wsl_path] raises on no string, the empty string and the strings of
    one or two characters included, and its result holds no backslash. *)
Theorem wsl_path_total_normal (path : string) :
  ∃ q, WslExec.wsl_path path = Ok q ∧ Py.mem Py.backslash q = false.
Proof.
  destruct (wsl_path_returns path) as [q Hq].
  exists q. split; [done|]. by eapply wsl_path_normalized.
Qed.

(** X2: [wsl_path] is idempotent on every path, with backslashes or not:
    translating a translated path changes nothing. *)
Theorem wsl_path_idempotent_everywhere (path : string) :
  (WslExec.wsl_path path ≫= WslExec.wsl_path) = WslExec.wsl_path path.
Proof.
  destruct (wsl_path_returns path) as [q Hq]. rewrite Hq.
  cbn [mbind result_bind]. by eapply wsl_path_idempotent.
Qed.

(** X3: a path in which [\\wsl.localhost\] does not occur and whose second
    and third characters are not [:\] only has its backslashes replaced;
    so it is with the UNC paths of another host, [\\wsl$\...] among them. *)
Theorem wsl_path_other_shapes (path : string) :
  Py.occurs WslExec.unc_prefix path = false →
  String.eqb (Py.slice 1 3 path) ":\" = false →
  WslExec.wsl_path path = Ok (Py.replace Py.backslash Py.slash path).
Proof.
  intros Hocc Hdrive. unfold WslExec.wsl_path. rewrite Hdrive.
  destruct (Py.startswith "\\" path); [|done].
  unfold WslExec.unc_pattern. by rewrite (sub_lits_absent _ _ _ _ Hocc).
Qed.

Lemma wsl_path_other_shapes_witness :
  WslExec.wsl_path "\\wsl$\Ubuntu\home\me" =
  Ok (Py.replace Py.backslash Py.slash "\\wsl$\Ubuntu\home\me").
Proof. apply wsl_path_other_shapes; reflexivity. Defined.

(** X4: the root of a distribution, [\\wsl.localhost\<distro>] with nothing
    after the name, is translated to the empty string. *)
Theorem wsl_path_distro_root (distro : string) :
  Py.mem Py.backslash distro = false →
  WslExec.wsl_path ("\\wsl.localhost\" +:+ distro) = Ok "".
Proof.
  intros Hd. unfold WslExec.wsl_path.
  change ("\\wsl.localhost\" +:+ distro) with (WslExec.unc_prefix +:+ distro).
  replace (Py.startswith "\\" _) with true by done.
  by rewrite (sub_match _ _ _ _ unc_pattern_atoms (match_unc_root _ Hd)).
Qed.

Lemma wsl_path_distro_root_witness :
  WslExec.wsl_path ("\\wsl.localhost\" +:+ "Ubuntu") = Ok "".
Proof. apply wsl_path_distro_root. reflexivity. Defined.

(** ** More on [wsl_env] of [wsl_exec.py] *)

Section WslEnvMore.

Import WslExec.
Context {V : Type}.
Implicit Types (env e out : Dict.t V) (k key j : string) (ks : list string).

(** On keys without a flag the loop changes nothing. *)
Lemma strip_flags_plain ks e :
  (∀ k, k ∈ ks → 2 ≤ String.length k ∧ flagged k = false) →
  strip_flags ks e = Ok e.
Proof.
  induction ks as [|key ks IH]; intros Hks; [done|].
  destruct (Hks key) as [Hlen Hf]; [apply elem_of_cons; by left|].
  cbn [strip_flags]. rewrite (has_flag_long _ Hlen), Hf. cbn [mbind result_bind].
  apply IH. intros k Hk. apply Hks, elem_of_cons. by right.
Qed.

(** A key without a flag is never removed. *)
Lemma strip_flags_keeps_key ks e out j :
  strip_flags ks e = Ok out → j ∈ Dict.keys e → flagged j = false →
  j ∈ Dict.keys out.
Proof.
  revert e. induction ks as [|key ks IH]; intros e; [by intros [= ->]|].
  intros [_ H]%strip_flags_cons Hj Hf.
  destruct (flagged key) eqn:Hkey; [|by eapply IH].
  destruct H as (v & e' & Hpop & H). eapply IH; [done| |done].
  apply elem_keys_set. right.
  apply (pop_Ok _ _ _ _ Hpop); [done|]. intros ->. congruence.
Qed.

(** When every flagged key is still to be visited and no unflagged name
    is flagged, the loop leaves no flagged key. *)
Lemma strip_flags_no_flag_left ks e out :
  Dict.wf e →
  (∀ j, j ∈ Dict.keys e → flagged j = true → j ∈ ks) →
  (∀ k, k ∈ ks → flagged k = true → flagged (unflagged k) = false) →
  strip_flags ks e = Ok out →
  ∀ j, j ∈ Dict.keys out → flagged j = false.
Proof.
  revert e. induction ks as [|key ks IH]; intros e Hwf Hin Hun.
  - intros [= <-] j Hj. destruct (flagged j) eqn:Hf; [|done].
    by apply Hin, elem_of_nil in Hf.
  - intros [_ H]%strip_flags_cons.
    assert (∀ k, k ∈ ks → flagged k = true → flagged (unflagged k) = false) as Hun'.
    { intros k Hk. apply Hun, elem_of_cons. by right. }
    destruct (flagged key) eqn:Hkey.
    + destruct H as (v & e' & Hpop & H).
      destruct (pop_Ok _ _ _ _ Hpop) as (_ & _ & Hsub & _ & Hwf').
      destruct (Hwf' Hwf) as [Hwfe' Hnone]. apply get_None in Hnone.
      eapply IH; [by apply wf_set| |done|done].
      intros j [->|Hj]%elem_keys_set Hf.
      * rewrite Hun in Hf; [done|apply elem_of_cons; by left|done].
      * pose proof (Hin j (Hsub j Hj) Hf) as Hjk.
        apply elem_of_cons in Hjk as [->|?]; [done|done].
    + eapply IH; [done| |done|done].
      intros j Hj Hf.
      pose proof (Hin j Hj Hf) as Hjk.
      apply elem_of_cons in Hjk as [->|?]; [congruence|done].
Qed.

End WslEnvMore.

(** X5: on a mapping (its keys distinct) [wsl_env] returns exactly when
    every key has two characters or more, and the only error it raises is
    [IndexError]: [env.pop(key)] never fails. *)
Theorem wsl_env_raises_only_on_short_keys {V} (mk : string → V) (env : Dict.t V) :
  Dict.wf env →
  (returns (WslExec.wsl_env mk env) ↔
   ∀ k, k ∈ Dict.keys env → 2 ≤ String.length k) ∧
  (∀ x, WslExec.wsl_env mk env = Raise x → x = IndexError).
Proof.
  intros Hwf. split; [by apply wsl_env_returns_iff|].
  unfold WslExec.wsl_env. intros x Hx.
  eapply strip_flags_raises; [| |done|done]; by apply wf_set.
Qed.

Lemma wsl_env_raises_only_on_short_keys_witness :
  (returns (WslExec.wsl_env id [("SPEC", "$file"); ("PATH/p", "C:\x")]) ↔
   ∀ k, k ∈ Dict.keys [("SPEC", "$file"); ("PATH/p", "C:\x")] →
        2 ≤ String.length k) ∧
  (∀ x, WslExec.wsl_env id [("SPEC", "$file"); ("PATH/p", "C:\x")] = Raise x →
        x = IndexError).
Proof. apply wsl_env_raises_only_on_short_keys. unfold Dict.wf. compute_done. Defined.

(** X6: the result of [wsl_env] always has a [WSLENV] entry, and the entry
    is the colon-joined list of the input's keys, in their order, unless a
    flagged key of the input has the unflagged name [WSLENV]. *)
Theorem wsl_env_manifest_present {V} (mk : string → V) (env out : Dict.t V) :
  WslExec.wsl_env mk env = Ok out →
  "WSLENV" ∈ Dict.keys out ∧
  ((∀ k, k ∈ Dict.keys env → WslExec.flagged k = true →
         WslExec.unflagged k ≠ "WSLENV") →
   Dict.get "WSLENV" out = Some (mk (Py.join ":" (Dict.keys env)))).
Proof.
  intros Hout. split; [|by apply wsl_env_manifest].
  unfold WslExec.wsl_env in Hout.
  eapply strip_flags_keeps_key; [done| |done].
  apply elem_keys_set. by left.
Qed.

Lemma wsl_env_manifest_present_witness :
  "WSLENV" ∈ Dict.keys [("SPEC", "$file"); ("WSLENV", "SPEC:PATH/p"); ("PATH", "C:\x")] ∧
  ((∀ k, k ∈ Dict.keys [("SPEC", "$file"); ("PATH/p", "C:\x")] →
         WslExec.flagged k = true → WslExec.unflagged k ≠ "WSLENV") →
   Dict.get "WSLENV" [("SPEC", "$file"); ("WSLENV", "SPEC:PATH/p"); ("PATH", "C:\x")]
   = Some (id (Py.join ":" (Dict.keys [("SPEC", "$file"); ("PATH/p", "C:\x")])))).
Proof.
  apply (wsl_env_manifest_present id [("SPEC", "$file"); ("PATH/p", "C:\x")]).
  reflexivity.
Defined.

(** X7: a key without a flag, other than [WSLENV], that is not the
    unflagged name of a flagged key keeps its entry (or its absence). *)
Theorem wsl_env_keeps_plain {V} (mk : string → V) (env out : Dict.t V) (k : string) :
  WslExec.wsl_env mk env = Ok out →
  WslExec.flagged k = false → k ≠ "WSLENV" →
  (∀ k', k' ∈ Dict.keys env → WslExec.flagged k' = true → WslExec.unflagged k' ≠ k) →
  Dict.get k out = Dict.get k env.
Proof.
  unfold WslExec.wsl_env. intros Hout Hk Hne Hfree.
  rewrite (strip_flags_frame k _ _ _ Hout).
  - by rewrite get_set, decide_False.
  - intros k' Hk' Hf'. split; [congruence|].
    apply Hfree; [|done]. by eapply snapshot_flagged.
Qed.

Lemma wsl_env_keeps_plain_witness :
  Dict.get "SPEC" [("SPEC", "$file"); ("WSLENV", "SPEC:PATH/p"); ("PATH", "C:\x")] =
  Dict.get "SPEC" [("SPEC", "$file"); ("PATH/p", "C:\x")].
Proof.
  apply (wsl_env_keeps_plain id [("SPEC", "$file"); ("PATH/p", "C:\x")]).
  - reflexivity.
  - reflexivity.
  - compute_done.
  - rewrite <-Forall_forall. compute_done.
Defined.

(** X8: when no flagged key of the input has an unflagged name that is
    flagged again, no key of the result is flagged. *)
Theorem wsl_env_strips_all_flags {V} (mk : string → V) (env out : Dict.t V) :
  Dict.wf env →
  WslExec.wsl_env mk env = Ok out →
  (∀ k, k ∈ Dict.keys env → WslExec.flagged k = true →
        WslExec.flagged (WslExec.unflagged k) = false) →
  ∀ j, j ∈ Dict.keys out → WslExec.flagged j = false.
Proof.
  unfold WslExec.wsl_env. intros Hwf Hout Hun.
  eapply strip_flags_no_flag_left; [by apply wf_set| | |done].
  - done.
  - intros k Hk Hf. apply Hun; [|done]. by eapply snapshot_flagged.
Qed.

Lemma wsl_env_strips_all_flags_witness :
  Forall (λ j, WslExec.flagged j = false)
    (Dict.keys [("WSLENV", "LIST/l:PATH/p:UNIX/u:WIN/w"); ("LIST", "a");
                ("PATH", "b"); ("UNIX", "c"); ("WIN", "d")]).
Proof.
  rewrite Forall_forall.
  apply (wsl_env_strips_all_flags id
           [("LIST/l", "a"); ("PATH/p", "b"); ("UNIX/u", "c"); ("WIN/w", "d")]).
  - unfold Dict.wf. compute_done.
  - reflexivity.
  - rewrite <-Forall_forall. compute_done.
Defined.

(** X9: on a mapping without flagged keys, all of two characters or more,
    [wsl_env] of [wsl_exec.py] returns what [wsl_env] of [main.py] returns:
    the input with its [WSLENV] entry. *)
Theorem wsl_env_without_flags {V} (mk : string → V) (env : Dict.t V) :
  (∀ k, k ∈ Dict.keys env → 2 ≤ String.length k ∧ WslExec.flagged k = false) →
  WslExec.wsl_env mk env = Ok (Main.wsl_env mk env).
Proof.
  intros Hplain. unfold WslExec.wsl_env, Main.wsl_env.
  apply strip_flags_plain.
  intros k [->|Hk]%elem_snapshot; [|by apply Hplain].
  split; [simpl; lia|done].
Qed.

Lemma wsl_env_without_flags_witness :
  WslExec.wsl_env id [("PLAIN", "untranslated"); ("SPEC", "$file")] =
  Ok (Main.wsl_env id [("PLAIN", "untranslated"); ("SPEC", "$file")]).
Proof. apply wsl_env_without_flags. rewrite <-Forall_forall. compute_done. Defined.

(** ** More on [run] of [wsl_exec.py] *)

Lemma run_passes_through_witness :
  ∃ args vars',
    WslExec.run (λ _ v, v) sample_variables WslExec.path_variables
      ["bundle"; "exec"; "rake"] "C:\proj" (Some sample_env) sample_kwargs = Ok args ∧
    WslExec.add_unix_variables WslExec.path_variables sample_variables = Ok vars' ∧
    args !! "cancel" = (λ v, v) <$> sample_kwargs !! "cancel".
Proof.
  destruct (WslExec.run (λ _ v, v) sample_variables WslExec.path_variables
              ["bundle"; "exec"; "rake"] "C:\proj" (Some sample_env) sample_kwargs)
    as [args|] eqn:Hrun; [|vm_compute in Hrun; discriminate Hrun].
  destruct (run_passes_through _ _ _ _ _ _ _ _ "cancel" Hrun ltac:(compute_done))
    as (vars' & Hadd & Hk).
  exists args, vars'. split; [reflexivity|]. split; [exact Hadd|exact Hk].
Defined.

Section RunErrors.

Import WslExec.
Implicit Types (order : list string) (vars : gmap string string).

(** The loop over the path variables raises nothing but [KeyError]. *)
Lemma add_unix_variables_raises order vars x :
  add_unix_variables order vars = Raise x → x = KeyError.
Proof.
  revert vars. induction order as [|var order IH]; intros vars; [done|].
  cbn [add_unix_variables]. unfold lookup_var.
  destruct (vars !! var) as [y|]; [|by intros [= <-]]. cbn [mbind result_bind].
  destruct (wsl_path_returns y) as [t ->]. cbn [mbind result_bind]. apply IH.
Qed.

Lemma path_variables_NoDup : NoDup path_variables.
Proof. unfold path_variables. compute_done. Qed.

(** Where the loop completes, a translated name holds the translation of
    the variable it is made from. *)
Lemma add_unix_variables_unix order vars vars' v :
  order ≡ₚ path_variables →
  add_unix_variables order vars = Ok vars' → v ∈ path_variables →
  ∃ y t, vars !! v = Some y ∧ wsl_path y = Ok t ∧ vars' !! unix_name v = Some t.
Proof.
  intros Hperm Hadd Hv.
  eapply add_unix_variables_counterparts; [| |done|by rewrite Hperm].
  - rewrite Hperm. apply path_variables_NoDup.
  - intros a b. rewrite !Hperm. apply path_variables_plain.
Qed.

End RunErrors.

(** X11: the order in which the set of path variables is visited does not
    matter: any two orders give the same variable table, or both raise
    [KeyError]. *)
Theorem add_unix_variables_order_irrelevant
    (order order' : list string) (vars : gmap string string) :
  order ≡ₚ WslExec.path_variables → order' ≡ₚ WslExec.path_variables →
  WslExec.add_unix_variables order vars = WslExec.add_unix_variables order' vars.
Proof.
  intros Hperm Hperm'.
  assert (∀ o, o ≡ₚ WslExec.path_variables →
    returns (WslExec.add_unix_variables o vars) ↔
    ∀ v, v ∈ WslExec.path_variables → is_Some (vars !! v)) as Hret.
  { intros o Ho. rewrite add_unix_variables_returns.
    - by setoid_rewrite Ho.
    - intros a b. rewrite !Ho. apply path_variables_plain. }
  destruct (WslExec.add_unix_variables order vars) as [a|x] eqn:Ha;
    destruct (WslExec.add_unix_variables order' vars) as [b|y] eqn:Hb.
  - f_equal. apply map_eq. intros i.
    destruct (decide (i ∈ WslExec.unix_name <$> WslExec.path_variables)) as [Hi|Hi].
    + apply list_elem_of_fmap in Hi as (v & -> & Hv).
      destruct (add_unix_variables_unix _ _ _ v Hperm Ha Hv) as (y & t & Hy & Ht & ->).
      destruct (add_unix_variables_unix _ _ _ v Hperm' Hb Hv) as (y' & t' & Hy' & Ht' & ->).
      congruence.
    + rewrite (add_unix_variables_frame _ _ _ _ Ha), (add_unix_variables_frame _ _ _ _ Hb);
        [done|by rewrite Hperm'|by rewrite Hperm].
  - assert (returns (WslExec.add_unix_variables order' vars)) as [? ?].
    { apply (Hret _ Hperm'), (Hret _ Hperm). rewrite Ha. by eexists. }
    congruence.
  - assert (returns (WslExec.add_unix_variables order vars)) as [? ?].
    { apply (Hret _ Hperm), (Hret _ Hperm'). rewrite Hb. by eexists. }
    congruence.
  - by rewrite (add_unix_variables_raises _ _ _ Ha),
               (add_unix_variables_raises _ _ _ Hb).
Qed.

Lemma add_unix_variables_order_irrelevant_witness :
  WslExec.add_unix_variables (reverse WslExec.path_variables) sample_variables =
  WslExec.add_unix_variables WslExec.path_variables sample_variables.
Proof.
  apply add_unix_variables_order_irrelevant; [apply reverse_Permutation|done].
Defined.

(** X12: for an environment with distinct keys, [run] reaches the execution
    engine exactly when the host supplies the six path variables and every
    key of the environment has two characters or more. *)
Theorem run_returns_exactly
    (expand : gmap string string → value → value)
    (vars : gmap string string) (order : list string)
    (cmd : list string) (wd : string) (env : option (Dict.t value))
    (kwargs : gmap string value) :
  order ≡ₚ WslExec.path_variables →
  (∀ e, env = Some e → Dict.wf e) →
  returns (WslExec.run expand vars order cmd wd env kwargs) ↔
  (∀ v, v ∈ WslExec.path_variables → is_Some (vars !! v)) ∧
  (∀ e, env = Some e → ∀ k, k ∈ Dict.keys e → 2 ≤ String.length k).
Proof.
  intros Hperm Hwf.
  assert (returns (WslExec.add_unix_variables order vars) ↔
          ∀ v, v ∈ WslExec.path_variables → is_Some (vars !! v)) as Hret.
  { rewrite add_unix_variables_returns.
    - by setoid_rewrite Hperm.
    - intros a b. rewrite !Hperm. apply path_variables_plain. }
  split.
  - intros [args Hrun]. unfold WslExec.run in Hrun.
    destruct (WslExec.wsl_cmd cmd wd) as [cmd'|]; [|done].
    cbn [mbind result_bind] in Hrun.
    destruct env as [e|]; [destruct (bool_decide (e = [])) eqn:He|].
    + cbn [mbind result_bind] in Hrun.
      destruct (WslExec.add_unix_variables order vars) as [vars'|] eqn:Hadd; [|done].
      split; [apply Hret; by eexists|].
      intros ? [= <-] k Hk. apply bool_decide_eq_true in He as ->.
      by apply elem_of_nil in Hk.
    + destruct (WslExec.wsl_env VStr e) as [e'|] eqn:Henv; [|done].
      cbn [mbind result_bind] in Hrun.
      destruct (WslExec.add_unix_variables order vars) as [vars'|] eqn:Hadd; [|done].
      split; [apply Hret; by eexists|].
      intros ? [= <-]. apply (wsl_env_returns_iff VStr e (Hwf e eq_refl)).
      rewrite Henv. by eexists.
    + cbn [mbind result_bind] in Hrun.
      destruct (WslExec.add_unix_variables order vars) as [vars'|] eqn:Hadd; [|done].
      split; [apply Hret; by eexists|]. done.
  - intros [Hvars Hlen]. apply run_returns; [done..|].
    intros e ->. split; [by apply Hwf|by apply Hlen].
Qed.

Lemma run_returns_exactly_witness :
  returns (WslExec.run (λ _ v, v) sample_variables WslExec.path_variables
             ["rake"] "" (Some sample_env) sample_kwargs) ↔
  (∀ v, v ∈ WslExec.path_variables → is_Some (sample_variables !! v)) ∧
  (∀ e, Some sample_env = Some e → ∀ k, k ∈ Dict.keys e → 2 ≤ String.length k).
Proof.
  apply run_returns_exactly; [done|].
  intros e [= <-]. unfold Dict.wf. compute_done.
Defined.

(** X13: when the host does not supply one of the six path variables (no
    file is open, say), [run] raises [KeyError], provided the environment
    is one on which [wsl_env] returns. *)
Theorem run_missing_variable
    (expand : gmap string string → value → value)
    (vars : gmap string string) (order : list string)
    (cmd : list string) (wd : string) (env : option (Dict.t value))
    (kwargs : gmap string value) (v : string) :
  order ≡ₚ WslExec.path_variables →
  v ∈ WslExec.path_variables → vars !! v = None →
  (∀ e, env = Some e → returns (WslExec.wsl_env VStr e)) →
  WslExec.run expand vars order cmd wd env kwargs = Raise KeyError.
Proof.
  intros Hperm Hv Hnone Henv.
  assert (WslExec.add_unix_variables order vars = Raise KeyError) as Hadd.
  { destruct (WslExec.add_unix_variables order vars) as [vars'|x] eqn:Hadd.
    - assert (is_Some (vars !! v)) as [? ?]; [|congruence].
      assert (∀ a b, a ∈ order → b ∈ order → a ≠ WslExec.unix_name b) as Hplain.
      { intros a b. rewrite !Hperm. apply path_variables_plain. }
      apply (proj1 (add_unix_variables_returns order vars Hplain));
        [by exists vars'|by rewrite Hperm].
    - f_equal. by eapply add_unix_variables_raises. }
  unfold WslExec.run.
  destruct (wsl_cmd_returns cmd wd) as [cmd' ->]. cbn [mbind result_bind].
  destruct env as [e|]; [destruct (bool_decide (e = []))|];
    cbn [mbind result_bind]; try by rewrite Hadd.
  destruct (Henv e eq_refl) as [e' ->]. cbn [mbind result_bind]. by rewrite Hadd.
Qed.

Lemma run_missing_variable_witness :
  WslExec.run (λ _ v, v) (delete "file" sample_variables) WslExec.path_variables
    ["rake"] "" None sample_kwargs = Raise KeyError.
Proof.
  apply (run_missing_variable _ _ _ _ _ _ _ "file"); [done|compute_done|compute_done|done].
Defined.

(** ** More on [wsl_path] of [main.py] *)

Section MainPathFacts.

Implicit Types (s t x rest repl : string) (p : Re.pattern) (l : list Re.atom).

Lemma startswith_app_l t u s :
  Py.startswith (t +:+ u) s = true → Py.startswith t s = true.
Proof.
  revert s. induction t as [|c t IH]; intros s; [done|]. simpl.
  destruct s as [|b s]; [done|]. destruct (Ascii.eqb c b); [apply IH|done].
Qed.

Lemma occurs_app_l t u s : Py.occurs t s = false → Py.occurs (t +:+ u) s = false.
Proof.
  induction s as [|c s IH].
  - simpl. rewrite !orb_false_r. intros Ht.
    destruct (Py.startswith (t +:+ u) "") eqn:H; [|done].
    apply startswith_app_l in H. congruence.
  - cbn [Py.occurs]. intros [Ht Hs]%orb_false_elim. rewrite (IH Hs), orb_false_r.
    destruct (Py.startswith (t +:+ u) (String c s)) eqn:H; [|done].
    apply startswith_app_l in H. congruence.
Qed.

Lemma match_lits_app t l s :
  Re.match_atoms (Re.lits t ++ l) s =
  if Py.startswith t s then Re.match_atoms l (Py.slice_from (String.length t) s)
  else None.
Proof.
  revert s. induction t as [|c t IH]; intros s; [done|].
  destruct s as [|b s]; [done|]. cbn.
  destruct (Ascii.eqb c b); [apply IH|done].
Qed.

(** Where the literal head of a pattern does not occur, nothing is
    substituted. *)
Lemma sub_head_absent t l o repl s :
  Py.occurs t s = false → Re.sub (Re.Pattern (Re.lits t ++ l) o) repl s = s.
Proof.
  induction s as [|c s IH]; [done|]. intros Hocc.
  rewrite sub_skip.
  - f_equal. apply IH. by eapply occurs_tail.
  - unfold Re.match_at. cbn [Re.atoms]. rewrite match_lits_app.
    by rewrite (occurs_head _ _ Hocc).
Qed.

Lemma occurs_absent_char (c : ascii) t s :
  Py.mem c s = false → Py.occurs (String c t) s = false.
Proof.
  induction s as [|b s IH]; [done|]. simpl.
  intros [Hb Hs]%orb_false_elim. rewrite (IH Hs), orb_false_r.
  rewrite Ascii.eqb_sym, Hb. done.
Qed.

(** The scan passes over a text without backslashes. *)
Lemma sub_main_unc_skip x s :
  Py.mem Py.backslash x = false →
  Re.sub Main.unc_pattern "" (x +:+ s) = x +:+ Re.sub Main.unc_pattern "" s.
Proof.
  induction x as [|c x IH]; [done|]. simpl.
  intros [Hc Hx]%orb_false_elim. rewrite sub_skip; [by rewrite IH|].
  unfold Re.match_at, Main.unc_pattern. cbn [Re.atoms]. rewrite match_lits_app.
  replace (Py.startswith "\\wsl" (String c (x +:+ s))) with false; [done|].
  cbn [Py.startswith]. fold Py.backslash. by rewrite Ascii.eqb_sym, Hc.
Qed.

Lemma match_main_unc (c : ascii) rest :
  c ≠ "010"%char →
  Re.match_at Main.unc_pattern ("\\wsl" +:+ String c ("localhost\Ubuntu" +:+ rest)) =
  Some rest.
Proof.
  intros Hc. unfold Re.match_at, Main.unc_pattern. cbn [Re.atoms Re.tail_not].
  rewrite match_lits_app, startswith_app, slice_from_app.
  cbn [app Re.match_atoms Re.atom_matches].
  rewrite (proj2 (ascii_eqb_false c "010"%char) Hc). cbn [negb].
  by rewrite match_lits, startswith_app, slice_from_app.
Qed.

Lemma main_unc_pattern_atoms : Re.atoms Main.unc_pattern ≠ [].
Proof. vm_compute. discriminate. Qed.

(** The prefix is removed wherever the scan meets it. *)
Lemma sub_main_unc x (c : ascii) rest :
  Py.mem Py.backslash x = false → c ≠ "010"%char →
  Py.occurs "\\" rest = false →
  Re.sub Main.unc_pattern ""
    (x +:+ "\\wsl" +:+ String c ("localhost\Ubuntu" +:+ rest)) = x +:+ rest.
Proof.
  intros Hx Hc Hrest. rewrite (sub_main_unc_skip _ _ Hx). f_equal.
  rewrite (sub_match _ _ _ _ main_unc_pattern_atoms (match_main_unc _ _ Hc)).
  cbn [String.append]. unfold Main.unc_pattern.
  change (Re.lits "\\wsl" ++ [Re.Dot] ++ Re.lits "localhost\Ubuntu")
    with (Re.lits "\\" ++ (Re.lits "wsl" ++ [Re.Dot] ++ Re.lits "localhost\Ubuntu")).
  by apply sub_head_absent.
Qed.

End MainPathFacts.

(** X14: the result of [wsl_path] of [main.py] holds no backslash, and
    translating it again changes nothing. *)
Theorem main_wsl_path_normal_idempotent (s : string) :
  Py.mem Py.backslash (Main.wsl_path s) = false ∧
  Main.wsl_path (Main.wsl_path s) = Main.wsl_path s.
Proof.
  assert (Py.mem Py.backslash (Main.wsl_path s) = false) as Hn.
  { rewrite main_wsl_path_normalizes. by apply replace_removes. }
  split; [done|]. rewrite (main_wsl_path_normalizes (Main.wsl_path s)).
  unfold Main.unc_pattern at 1.
  change (Re.lits "\\wsl" ++ [Re.Dot] ++ Re.lits "localhost\Ubuntu")
    with (Re.lits "\" ++ (Re.lits "\wsl" ++ [Re.Dot] ++ Re.lits "localhost\Ubuntu")).
  rewrite sub_head_absent; [by apply replace_absent|].
  by apply (occurs_absent_char Py.backslash "").
Qed.

(** X15: [wsl_path] of [main.py] only replaces the backslashes of a path
    without two backslashes in a row: a drive path keeps its drive. *)
Theorem main_wsl_path_plain (s : string) :
  Py.occurs "\\" s = false →
  Main.wsl_path s = Py.replace Py.backslash Py.slash s.
Proof.
  intros Hs. rewrite main_wsl_path_normalizes. f_equal.
  unfold Main.unc_pattern.
  change (Re.lits "\\wsl" ++ [Re.Dot] ++ Re.lits "localhost\Ubuntu")
    with (Re.lits "\\" ++ (Re.lits "wsl" ++ [Re.Dot] ++ Re.lits "localhost\Ubuntu")).
  by apply sub_head_absent.
Qed.

Lemma main_wsl_path_plain_witness :
  Main.wsl_path "C:\proj\spec\a_spec.rb" =
  Py.replace Py.backslash Py.slash "C:\proj\spec\a_spec.rb".
Proof. apply main_wsl_path_plain. reflexivity. Defined.

(** X16: [wsl_path] of [main.py] removes [\\wsl.localhost\Ubuntu] wherever
    the scan meets it, here after any text without backslashes and before
    any text at all, with any character but a newline in the place of the
    dot, which the pattern does not escape; the text after it is translated
    as it is on its own. *)
Theorem main_wsl_path_strips_anywhere (x : string) (c : ascii) (rest : string) :
  Py.mem Py.backslash x = false → c ≠ "010"%char →
  Main.wsl_path (x +:+ "\\wsl" +:+ String c ("localhost\Ubuntu" +:+ rest)) =
  x +:+ Main.wsl_path rest.
Proof.
  intros Hx Hc. rewrite !main_wsl_path_normalizes.
  rewrite (sub_main_unc_skip _ _ Hx).
  rewrite (sub_match _ _ _ _ main_unc_pattern_atoms (match_main_unc _ _ Hc)).
  cbn [String.append]. rewrite replace_app.
  by rewrite (replace_absent _ _ _ Hx).
Qed.

Lemma main_wsl_path_strips_anywhere_witness :
  Main.wsl_path ("file:" +:+ "\\wsl" +:+
                 String "-" ("localhost\Ubuntu" +:+ "\\wsl.localhost\Ubuntu\a")) =
  "file:" +:+ Main.wsl_path "\\wsl.localhost\Ubuntu\a".
Proof. apply main_wsl_path_strips_anywhere; [reflexivity|discriminate]. Defined.

Example main_wsl_path_twice :
  Main.wsl_path "file:\\wsl-localhost\Ubuntu\\wsl.localhost\Ubuntu\a" = "file:/a".
Proof. reflexivity. Qed.

(** X17: on a path under [\\wsl.localhost\Ubuntu\] without two further
    backslashes in a row, the two versions of [wsl_path] agree. *)
Theorem wsl_path_versions_agree (rest : string) :
  Py.occurs "\\" ("\" +:+ rest) = false →
  WslExec.wsl_path ("\\wsl.localhost\Ubuntu\" +:+ rest) =
  Ok (Main.wsl_path ("\\wsl.localhost\Ubuntu\" +:+ rest)).
Proof.
  intros Hrest.
  pose proof (main_wsl_path_normalizes ("\\wsl.localhost\Ubuntu\" +:+ rest)) as Hmain.
  change ("\\wsl.localhost\Ubuntu\" +:+ rest)
    with ("" +:+ "\\wsl" +:+ String "." ("localhost\Ubuntu" +:+ "\" +:+ rest))
    in Hmain at 2.
  rewrite sub_main_unc in Hmain; [|done|discriminate|done]. rewrite Hmain.
  unfold WslExec.wsl_path.
  change ("\\wsl.localhost\Ubuntu\" +:+ rest)
    with (WslExec.unc_prefix +:+ "Ubuntu" +:+ String Py.backslash rest).
  replace (Py.startswith "\\" _) with true by done.
  rewrite sub_unc; [done|done|].
  by apply (occurs_app_l "\\" "wsl.localhost\").
Qed.

Lemma wsl_path_versions_agree_witness :
  WslExec.wsl_path ("\\wsl.localhost\Ubuntu\" +:+ "home\me\a.rb") =
  Ok (Main.wsl_path ("\\wsl.localhost\Ubuntu\" +:+ "home\me\a.rb")).
Proof. apply wsl_path_versions_agree. reflexivity. Defined.

(** ** More on [run] of [main.py] *)

Section MainRunFacts.

Implicit Types (vars : gmap string string) (kwargs args : gmap string value).

(** What [run] of [main.py] hands on, step by step. *)
Lemma main_run_inv expand vars kwargs args :
  Main.run expand vars kwargs = Ok args →
  ∃ vars' l,
    Main.convert_variables Main.converted vars = Ok vars' ∧
    default (VList []) (expand vars' <$> kwargs !! "wsl_cmd") = VList l ∧
    let a0 : gmap string value := expand vars' <$> kwargs in
    let a1 := <["cmd" := VList (VStr "wsl" :: l)]> (delete "wsl_cmd" a0) in
    let a2 := match a1 !! "wsl_working_dir" with
              | Some wd => <["working_dir" := wd]> (delete "wsl_working_dir" a1)
              | None => a1
              end in
    match a2 !! "wsl_env" with
    | Some e => ∃ d, e = VDict d ∧
                     args = <["env" := VDict (Main.wsl_env VStr d)]> (delete "wsl_env" a2)
    | None => args = a2
    end.
Proof.
  unfold Main.run, Main.pop_default. intros Hrun.
  destruct (Main.convert_variables Main.converted vars) as [vars'|] eqn:Hconv; [|done].
  cbn [mbind result_bind] in Hrun.
  rewrite lookup_fmap in Hrun.
  destruct (default (VList []) (expand vars' <$> kwargs !! "wsl_cmd")) as [| | | |l|] eqn:Hc;
    try done.
  cbn [mbind result_bind] in Hrun.
  exists vars', l. split; [done|]. split; [done|]. cbn zeta.
  set (a1 := <["cmd":=VList (VStr "wsl" :: l)]> (delete "wsl_cmd" (expand vars' <$> kwargs))) in *.
  assert (∀ A (o : option A), bool_decide (is_Some o) = match o with Some _ => true | None => false end) as Hdec.
  { intros A [a|]; [by apply bool_decide_eq_true_2|].
    apply bool_decide_eq_false_2. by intros [? ?]. }
  rewrite !Hdec in Hrun.
  destruct (a1 !! "wsl_working_dir") as [wd|] eqn:Hwd;
    cbn [from_option id] in Hrun; cbv beta iota in Hrun.
  - set (a2 := <["working_dir":=wd]> (delete "wsl_working_dir" a1)) in *.
    destruct (a2 !! "wsl_env") as [e|] eqn:He;
      cbn [from_option id] in Hrun; cbv beta iota in Hrun;
      [|by injection Hrun as <-].
    destruct e; try done. injection Hrun as <-. by eexists.
  - destruct (a1 !! "wsl_env") as [e|] eqn:He;
      cbn [from_option id] in Hrun; cbv beta iota in Hrun; [|by injection Hrun as <-].
    destruct e; try done. injection Hrun as <-. by eexists.
Qed.

Lemma main_convert_variables_cons var l vars vars' :
  Main.convert_variables (var :: l) vars = Ok vars' →
  ∃ x, vars !! var = Some x ∧
       Main.convert_variables l (<[var := Main.wsl_path x]> vars) = Ok vars'.
Proof.
  cbn [Main.convert_variables]. unfold WslExec.lookup_var.
  destruct (vars !! var) as [x|]; [|done]. cbn [mbind result_bind].
  intros H. by exists x.
Qed.

Lemma main_convert_variables_frame l vars vars' k :
  Main.convert_variables l vars = Ok vars' → k ∉ l → vars' !! k = vars !! k.
Proof.
  revert vars. induction l as [|var l IH]; intros vars; [by intros [= ->]|].
  intros (x & _ & H)%main_convert_variables_cons [Hk Hl]%not_elem_of_cons.
  by rewrite (IH _ H Hl), lookup_insert_ne.
Qed.

Lemma main_convert_variables_written l vars vars' :
  NoDup l → Main.convert_variables l vars = Ok vars' →
  ∀ v, v ∈ l → ∃ x, vars !! v = Some x ∧ vars' !! v = Some (Main.wsl_path x).
Proof.
  revert vars. induction l as [|var l IH]; intros vars Hnd;
    [by intros _ v ?%elem_of_nil|].
  apply NoDup_cons in Hnd as [Hvar Hnd].
  intros (x & Hx & H)%main_convert_variables_cons v [->|Hv]%elem_of_cons.
  - exists x. split; [done|].
    by rewrite (main_convert_variables_frame _ _ _ _ H Hvar), lookup_insert_eq.
  - destruct (IH _ Hnd H v Hv) as (y & Hy & Hv'). exists y. split; [|done].
    rewrite lookup_insert_ne in Hy; [done|]. by intros ->.
Qed.

Lemma main_convert_variables_raises l vars x :
  Main.convert_variables l vars = Raise x → x = KeyError.
Proof.
  revert vars. induction l as [|var l IH]; intros vars; [done|].
  cbn [Main.convert_variables]. unfold WslExec.lookup_var.
  destruct (vars !! var) as [y|]; [|by intros [= <-]]. cbn [mbind result_bind].
  apply IH.
Qed.

Lemma main_convert_variables_returns l vars :
  NoDup l →
  returns (Main.convert_variables l vars) ↔ ∀ v, v ∈ l → is_Some (vars !! v).
Proof.
  revert vars. induction l as [|var l IH]; intros vars Hnd.
  { split; [by intros _ v ?%elem_of_nil|by exists vars]. }
  apply NoDup_cons in Hnd as [Hvar Hnd]. split.
  - intros [vars' (x & Hx & H)%main_convert_variables_cons] v [->|Hv]%elem_of_cons;
      [by exists x|].
    assert (is_Some (<[var := Main.wsl_path x]> vars !! v)) as Hs.
    { eapply IH; [done|by exists vars'|done]. }
    rewrite lookup_insert_ne in Hs; [done|]. by intros ->.
  - intros Hall. destruct (Hall var) as [x Hx]; [apply elem_of_cons; by left|].
    cbn [Main.convert_variables]. unfold WslExec.lookup_var. rewrite Hx.
    cbn [mbind result_bind]. apply IH; [done|].
    intros v Hv. rewrite lookup_insert_ne; [|by intros ->].
    apply Hall, elem_of_cons. by right.
Qed.

End MainRunFacts.

(** X18: where the four assignments at the head of [run] of [main.py]
    complete, each of [file], [file_path], [folder] and [project_path] holds
    the translation of its former value, which is lost, and every other
    variable is as it was. *)
Theorem main_convert_variables_overwrites (vars vars' : gmap string string) :
  Main.convert_variables Main.converted vars = Ok vars' →
  (∀ v, v ∈ Main.converted →
        ∃ x, vars !! v = Some x ∧ vars' !! v = Some (Main.wsl_path x)) ∧
  (∀ k, k ∉ Main.converted → vars' !! k = vars !! k).
Proof.
  intros H. split.
  - apply main_convert_variables_written; [|done]. unfold Main.converted. compute_done.
  - intros k Hk. by eapply main_convert_variables_frame.
Qed.

Lemma main_convert_variables_overwrites_witness :
  ∃ vars',
    Main.convert_variables Main.converted sample_variables = Ok vars' ∧
    vars' !! "folder" = Some "C:/proj" ∧
    vars' !! "packages" = Some "C:\Users\me\Packages".
Proof.
  assert (∃ vars', Main.convert_variables Main.converted sample_variables = Ok vars')
    as [vars' Hconv] by (eexists; vm_compute; reflexivity).
  exists vars'. split; [exact Hconv|].
  destruct (main_convert_variables_overwrites _ _ Hconv) as [Hw Hf].
  split.
  - destruct (Hw "folder" ltac:(compute_done)) as (x & Hx & ->).
    vm_compute in Hx. injection Hx as <-. reflexivity.
  - rewrite Hf by compute_done. reflexivity.
Defined.

(** X19: the arguments that [run] of [main.py] hands to the execution
    engine hold none of [wsl_cmd], [wsl_working_dir] and [wsl_env], and
    their [cmd] is [wsl] followed by the expanded [wsl_cmd] of the raw
    input, or [wsl] alone when the raw input has none. *)
Theorem main_run_consumes
    (expand : gmap string string → value → value)
    (vars : gmap string string) (kwargs args : gmap string value) :
  Main.run expand vars kwargs = Ok args →
  args !! "wsl_cmd" = None ∧ args !! "wsl_working_dir" = None ∧
  args !! "wsl_env" = None ∧
  ∃ vars' l,
    Main.convert_variables Main.converted vars = Ok vars' ∧
    default (VList []) (expand vars' <$> kwargs !! "wsl_cmd") = VList l ∧
    args !! "cmd" = Some (VList (VStr "wsl" :: l)).
Proof.
  intros (vars' & l & Hconv & Hl & H)%main_run_inv. cbn zeta in H.
  set (a1 := <["cmd":=VList (VStr "wsl" :: l)]> (delete "wsl_cmd" (expand vars' <$> kwargs))) in *.
  assert (a1 !! "wsl_cmd" = None ∧ a1 !! "cmd" = Some (VList (VStr "wsl" :: l))) as [Hc1 Hc2].
  { unfold a1. by simplify_map_eq. }
  destruct (a1 !! "wsl_working_dir") as [wd|] eqn:Hwd.
  - set (a2 := <["working_dir":=wd]> (delete "wsl_working_dir" a1)) in *.
    destruct (a2 !! "wsl_env") as [e|] eqn:He.
    + destruct H as (d & -> & ->). unfold a2. simplify_map_eq. eauto 10.
    + subst args. unfold a2 in *. simplify_map_eq. eauto 10.
  - destruct (a1 !! "wsl_env") as [e|] eqn:He.
    + destruct H as (d & -> & ->). simplify_map_eq. eauto 10.
    + subst args. simplify_map_eq. eauto 10.
Qed.

Lemma main_run_consumes_witness :
  ∃ args,
    Main.run (λ _ v, v) sample_variables
      (<["wsl_cmd" := of_strings ["ls"; "-l"]]> sample_kwargs) = Ok args ∧
    args !! "wsl_cmd" = None ∧
    args !! "cmd" = Some (of_strings ["wsl"; "ls"; "-l"]).
Proof.
  assert (∃ args, Main.run (λ _ v, v) sample_variables
            (<["wsl_cmd" := of_strings ["ls"; "-l"]]> sample_kwargs) = Ok args)
    as [args Hrun] by (eexists; vm_compute; reflexivity).
  exists args. split; [exact Hrun|].
  destruct (main_run_consumes _ _ _ _ Hrun)
    as (Hcmd & _ & _ & vars' & l & _ & Hl & ->).
  split; [exact Hcmd|]. vm_compute in Hl. by injection Hl as <-.
Defined.

(** X20: [run] of [main.py] hands on the [shell_cmd] of the raw input, its
    [working_dir] unless a [wsl_working_dir] replaces it, and its [env]
    when there is no [wsl_env]: the fields of the engine leak through. *)
Theorem main_run_inherits_fields
    (expand : gmap string string → value → value)
    (vars : gmap string string) (kwargs args : gmap string value) :
  Main.run expand vars kwargs = Ok args →
  ∃ vars',
    Main.convert_variables Main.converted vars = Ok vars' ∧
    args !! "working_dir" =
      expand vars' <$> match kwargs !! "wsl_working_dir" with
                       | Some wd => Some wd
                       | None => kwargs !! "working_dir"
                       end ∧
    args !! "shell_cmd" = expand vars' <$> kwargs !! "shell_cmd" ∧
    (kwargs !! "wsl_env" = None → args !! "env" = expand vars' <$> kwargs !! "env").
Proof.
  intros (vars' & l & Hconv & Hl & H)%main_run_inv. cbn zeta in H.
  exists vars'. split; [done|].
  set (a1 := <["cmd":=VList (VStr "wsl" :: l)]> (delete "wsl_cmd" (expand vars' <$> kwargs))) in *.
  assert (∀ k, k ≠ "cmd" → k ≠ "wsl_cmd" → a1 !! k = expand vars' <$> kwargs !! k) as Ha1.
  { intros k ? ?. unfold a1. by rewrite lookup_insert_ne, lookup_delete_ne, lookup_fmap. }
  rewrite !Ha1 in H by done.
  destruct (kwargs !! "wsl_working_dir") as [wd|] eqn:Hwd; cbn [fmap option_fmap option_map] in H; cbv beta iota in H.
  - set (a2 := <["working_dir":=expand vars' wd]> (delete "wsl_working_dir" a1)) in *.
    assert (a2 !! "wsl_env" = expand vars' <$> kwargs !! "wsl_env") as Ha2.
    { unfold a2. by rewrite lookup_insert_ne, lookup_delete_ne, Ha1. }
    rewrite Ha2 in H.
    destruct (kwargs !! "wsl_env") as [e|] eqn:He; cbn [fmap option_fmap option_map] in H; cbv beta iota in H.
    + destruct H as (d & Hd & ->). unfold a2.
      rewrite !(lookup_insert_ne _ "env"), !(lookup_delete_ne _ "wsl_env") by done.
      rewrite lookup_insert_eq, lookup_insert_ne, lookup_delete_ne, Ha1 by done.
      done.
    + subst args. unfold a2.
      rewrite lookup_insert_eq, !lookup_insert_ne, !lookup_delete_ne, !Ha1 by done.
      done.
  - rewrite Ha1 in H by done.
    destruct (kwargs !! "wsl_env") as [e|] eqn:He;
      cbn [fmap option_fmap option_map] in H; cbv beta iota in H.
    + destruct H as (d & Hd & ->).
      rewrite !(lookup_insert_ne _ "env"), !(lookup_delete_ne _ "wsl_env"), !Ha1 by done.
      done.
    + subst args. by rewrite !Ha1.
Qed.

Lemma main_run_inherits_fields_witness :
  ∃ args vars',
    Main.run (λ _ v, v) sample_variables
      (<["wsl_cmd" := of_strings ["ls"]]> sample_kwargs) = Ok args ∧
    Main.convert_variables Main.converted sample_variables = Ok vars' ∧
    args !! "working_dir" = Some (VStr "C:\old") ∧
    args !! "shell_cmd" = Some (VStr "dir").
Proof.
  assert (∃ args, Main.run (λ _ v, v) sample_variables
            (<["wsl_cmd" := of_strings ["ls"]]> sample_kwargs) = Ok args)
    as [args Hrun] by (eexists; vm_compute; reflexivity).
  destruct (main_run_inherits_fields _ _ _ _ Hrun) as (vars' & Hconv & Hwd & Hsh & _).
  exists args, vars'. split; [exact Hrun|]. split; [exact Hconv|].
  rewrite Hwd, Hsh. split; reflexivity.
Defined.

(** X21: when the host does not supply one of [file], [file_path], [folder]
    and [project_path], [run] of [main.py] raises [KeyError], whatever the
    raw input. *)
Theorem main_run_missing_variable
    (expand : gmap string string → value → value)
    (vars : gmap string string) (kwargs : gmap string value) (v : string) :
  v ∈ Main.converted → vars !! v = None →
  Main.run expand vars kwargs = Raise KeyError.
Proof.
  intros Hv Hnone. unfold Main.run.
  destruct (Main.convert_variables Main.converted vars) as [vars'|x] eqn:Hconv.
  - assert (is_Some (vars !! v)) as [? ?]; [|congruence].
    eapply main_convert_variables_returns; [| |done].
    + unfold Main.converted. compute_done.
    + rewrite Hconv. by eexists.
  - by rewrite (main_convert_variables_raises _ _ _ Hconv).
Qed.

Lemma main_run_missing_variable_witness :
  Main.run (λ _ v, v) (delete "file" sample_variables) sample_kwargs = Raise KeyError.
Proof.
  apply (main_run_missing_variable _ _ _ "file"); [compute_done|reflexivity].
Defined.
